(** * VectorModel_2: request actions, model controller and background jobs

    A shallow embedding of
      - [src/actions.py]                    (general actions),
      - [src/vm_background_jobs/actions.py] (job actions),
      - [src/vm_models/controller.py]       (model controller and its decorators),
    together with a model of the background-job subsystem
    ([vm_background_jobs.decorators] and [vm_background_jobs.controller]),
    whose source is not part of the tree and which is therefore written
    from the specification.

    Python values are trees ([pyval]); Python code is a program in a free
    monad ([prog]) whose nodes are the calls the code makes to its
    collaborators (model classes, filter classes, version module, job
    controller).  A program that is literally [Raise e] raises [e] without
    having called anybody. *)

From Stdlib Require Import ZArith String Ascii.
From stdpp Require Import gmap strings list pretty.

Set Warnings "-register-all".

(** ** Python values *)

(** Request parameters are decoded JSON, hence trees: no two sub-objects of
    a request are the same object.  Under that reading an in-place update of
    a nested dict is the functional update of the tree.  Dict keys are
    strings.  A float is kept as mantissa and exponent; only whether it is
    zero matters here. *)
Inductive pyval : Type :=
| PNone
| PBool (b : bool)
| PInt (z : Z)
| PFloat (m e : Z)
| PStr (s : string)
| PList (l : list pyval)
| PDict (d : gmap string pyval).

(** Exceptions: the two of [vm_logging.exceptions] that the sources raise,
    the built-in ones that the dict and list operations raise, the errors of
    the job registry, and whatever a collaborator raises. *)
Inductive exn : Type :=
| ParameterNotFoundException (msg : string)
| ModelException (msg : string)
| KeyError (key : string)
| TypeError
| AttributeError
| NotFoundError (ref : pyval)
| DuplicateIdError (id : string)
| InvalidTransitionError (id : string)
| OtherException (name msg : string).

Definition result (A : Type) : Type := exn + A.

(** [bool(v)] *)
Definition truthy (v : pyval) : bool :=
  match v with
  | PNone => false
  | PBool b => b
  | PInt z => negb (z =? 0)%Z
  | PFloat m _ => negb (m =? 0)%Z
  | PStr s => match s with EmptyString => false | _ => true end
  | PList l => match l with [] => false | _ => true end
  | PDict d => negb (Nat.eqb (size d) 0)
  end.

(** [v.get(k)]: only dicts have the method. *)
Definition py_get (v : pyval) (k : string) : result pyval :=
  match v with
  | PDict d => inr (default PNone (d !! k))
  | _ => inl AttributeError
  end.

(** [s == k] for a string [k]: false for every value that is not a string. *)
Definition py_eq_str (k : string) (v : pyval) : bool :=
  match v with
  | PStr s => String.eqb s k
  | _ => false
  end.

(** [k in s] for two strings: [k] occurs in [s]. *)
Definition is_substring (k s : string) : bool :=
  match String.index 0 k s with
  | Some _ => true
  | None => false
  end.

(** [k in v] for a string [k]: key of a dict, element of a list, substring
    of a string; the other values are not iterable. *)
Definition py_contains (k : string) (v : pyval) : result bool :=
  match v with
  | PDict d => inr (match d !! k with Some _ => true | None => false end)
  | PList l => inr (existsb (py_eq_str k) l)
  | PStr s => inr (is_substring k s)
  | _ => inl TypeError
  end.

(** [v[k]] for a string [k]. *)
Definition py_getitem (v : pyval) (k : string) : result pyval :=
  match v with
  | PDict d => match d !! k with Some x => inr x | None => inl (KeyError k) end
  | _ => inl TypeError
  end.

(** [v[k] = x] for a string [k]; the container after the assignment. *)
Definition py_setitem (v : pyval) (k : string) (x : pyval) : result pyval :=
  match v with
  | PDict d => inr (PDict (<[k := x]> d))
  | _ => inl TypeError
  end.

(** [v[k1][k2]...[kn] = x]: the subscripts but the last are read from the
    outside in, the last is assigned; [v] after the nested object has been
    updated in place. *)
Fixpoint py_setitem_path (v : pyval) (k : string) (ks : list string) (x : pyval)
  : result pyval :=
  match ks with
  | [] => py_setitem v k x
  | k' :: ks' =>
      match py_getitem v k with
      | inl e => inl e
      | inr sub =>
          match py_setitem_path sub k' ks' x with
          | inl e => inl e
          | inr sub' => py_setitem v k sub'
          end
      end
  end.

(** [v[k1]...[kn]] *)
Fixpoint py_getitem_path (v : pyval) (ks : list string) : result pyval :=
  match ks with
  | [] => inr v
  | k :: ks' =>
      match py_getitem v k with
      | inl e => inl e
      | inr sub => py_getitem_path sub ks'
      end
  end.

(** ** Collaborators *)

(** Objects of classes defined outside of the sources. *)
Inductive model_class : Type := ModelClass (ref : nat).
Inductive model : Type := Model (ref : nat).
Inductive filter_class : Type := FilterClass (ref : nat).
Inductive filter_obj : Type := FilterObj (ref : nat).

(** The calls that leave the three source files; the index is the type of
    what the call returns.  Any of them may raise instead. *)
Inductive call : Type -> Type :=
(* vm_versions, general *)
| get_version : call pyval
| general_test (parameters : pyval) : call pyval
| general_ping (parameters : pyval) : call pyval
(* vm_background_jobs.controller *)
| controller_get_jobs_info (parameters : pyval) : call pyval
| controller_delete_background_job (parameters : pyval) : call pyval
(* vm_models.model_filters *)
| get_fitting_filter_class : call filter_class
| filter_class_new (c : filter_class) (input_filter : pyval) : call filter_obj
| get_value_as_model_parameter (f : filter_obj) : call pyval
(* vm_models.models *)
| get_model_class : call model_class
| model_class_new (c : model_class) (id : pyval) : call model
| model_fit (m : model) (fitting_parameters : pyval) : call pyval
| model_predict (m : model) (inputs : pyval) : call pyval
| model_initialize (m : model) (model_parameters : pyval) : call pyval
| model_drop (m : model) : call pyval
| model_get_info (m : model) : call pyval
| model_drop_fitting (m : model) : call pyval.

(** ** Programs *)

(** [Call c k]: call the collaborator, continue with its value (if it raises,
    the exception propagates: the sources catch nothing).
    [Launch callable parameters k]: hand [callable(parameters)] to the job
    launcher and continue with the job identifier. *)
Inductive prog (R : Type) : Type :=
| Ret (r : R)
| Raise (e : exn)
| Call {X : Type} (c : call X) (k : X -> prog R)
| Launch (callable : pyval -> prog pyval) (parameters : pyval) (k : string -> prog R).

Arguments Ret {R} r.
Arguments Raise {R} e.
Arguments Call {R X} c k.
Arguments Launch {R} callable parameters k.

Fixpoint bind {A B : Type} (m : prog A) (f : A -> prog B) : prog B :=
  match m with
  | Ret a => f a
  | Raise e => Raise e
  | Call c k => Call c (fun x => bind (k x) f)
  | Launch h p k => Launch h p (fun i => bind (k i) f)
  end.

Declare Scope prog_scope.
Delimit Scope prog_scope with prog.
Bind Scope prog_scope with prog.
Notation "x <- m ;; k" := (bind m (fun x => k))
  (at level 100, m at next level, right associativity) : prog_scope.
Local Open Scope prog_scope.

Definition lift {A : Type} (r : result A) : prog A :=
  match r with
  | inl e => Raise e
  | inr a => Ret a
  end.

Definition perform {X : Type} (c : call X) : prog X := Call c Ret.

(** A program run to its end, given what the collaborators answer ([h]) and
    what the launcher does ([l]) in a state of type [S].  An exception, be it
    raised by the program or by a collaborator, ends the run. *)
Fixpoint interp {S R : Type}
  (h : forall X : Type, call X -> S -> result X * S)
  (l : (pyval -> prog pyval) -> pyval -> S -> result string * S)
  (p : prog R) (s : S) : result R * S :=
  match p with
  | Ret r => (inr r, s)
  | Raise e => (inl e, s)
  | Call c k =>
      let '(a, s') := h _ c s in
      match a with
      | inl e => (inl e, s')
      | inr x => interp h l (k x) s'
      end
  | Launch callable parameters k =>
      let '(a, s') := l callable parameters s in
      match a with
      | inl e => (inl e, s')
      | inr i => interp h l (k i) s'
      end
  end.

(** What a program does on every path, whatever its collaborators answer. *)

Definition is_model_new {X : Type} (c : call X) : bool :=
  match c with
  | model_class_new _ _ => true
  | _ => false
  end.

(** After the calls to its collaborators have returned, the program is the
    invocation of [func] at parameters that satisfy [Q]. *)
Inductive invokes (func : pyval -> prog pyval) (Q : pyval -> Prop)
  : prog pyval -> Prop :=
| inv_here p : Q p -> invokes func Q (func p)
| inv_call X (c : call X) k :
    (forall x, invokes func Q (k x)) -> invokes func Q (Call c k).

(** No model is constructed, neither by the program nor by a job it
    launches. *)
Inductive never_creates_model : forall {R : Type}, prog R -> Prop :=
| ncm_ret R (r : R) : never_creates_model (Ret r)
| ncm_raise R e : never_creates_model (@Raise R e)
| ncm_call R X (c : call X) (k : X -> prog R) :
    is_model_new c = false ->
    (forall x, never_creates_model (k x)) ->
    never_creates_model (Call c k)
| ncm_launch R callable parameters (k : string -> prog R) :
    never_creates_model (callable parameters) ->
    (forall i, never_creates_model (k i)) ->
    never_creates_model (Launch callable parameters k).

Definition is_job_call {X : Type} (c : call X) : bool :=
  match c with
  | controller_get_jobs_info _ => true
  | controller_delete_background_job _ => true
  | _ => false
  end.

(** The program leaves the job subsystem alone: it launches nothing and
    does not call the job controller. *)
Inductive job_free {R : Type} : prog R -> Prop :=
| jf_ret r : job_free (Ret r)
| jf_raise e : job_free (Raise e)
| jf_call X (c : call X) k :
    is_job_call c = false ->
    (forall x, job_free (k x)) ->
    job_free (Call c k).

(** A double quote, for the messages that contain one. *)
Definition dq : string := String (ascii_of_nat 34) EmptyString.

(** ** [vm_background_jobs.decorators] *)

Module decorators.
Section Decorators.

(** The test for the background-execution indicator of a request. *)
Variable background_indicator : pyval -> bool.

(** Modelled from the spec: the source of [vm_background_jobs.decorators] is
    missing.  Section 4.3: when the indicator is absent the handler is
    invoked synchronously and its result returned directly; when it is
    present the handler and the parameters go to the job launcher and the
    new job identifier is returned.  The spec does not name the indicator,
    so the test for it is a parameter. *)
Definition execute_in_background (func : pyval -> prog pyval)
  : pyval -> prog pyval :=
  fun parameters =>
    if background_indicator parameters
    then Launch func parameters (fun job_id => Ret (PStr job_id))
    else func parameters.

End Decorators.
End decorators.

(** ** [src/vm_models/controller.py] *)

Module model_controller.
Section Controller.

Variable background_indicator : pyval -> bool.

Definition msg_model : string :=
  "Parameter " +:+ dq +:+ "model" +:+ dq +:+ " is not found in request parameters".
Definition msg_fitting_parameters : string :=
  "Parameter " +:+ dq +:+ "fitting_parameters" +:+ dq +:+ " not found in model parameters".
Definition msg_inputs : string :=
  "Parameter " +:+ dq +:+ "inputs" +:+ dq +:+ " is not in request parameters".
Definition msg_db : string :=
  "Parameter " +:+ dq +:+ "db" +:+ dq +:+ " is not found in request parameters".
Definition msg_id : string :=
  "Parameter " +:+ dq +:+ "id" +:+ dq +:+ " is not found in model parameters".
Definition msg_no_fitting_parameters : string :=
  "Can not find fitting parameters in model parameters".

(** Lines 24 to 39.  [result = func(parameters); return result] is the call
    of [func] in tail position. *)
Definition _check_input_parameters (func : pyval -> prog pyval)
  : pyval -> prog pyval :=
  fun parameters =>
    m <- lift (py_get parameters "model");;
    if negb (truthy m)
    then Raise (ParameterNotFoundException msg_model)
    else func parameters.

(** Lines 42 to 66.  The three assignments update the nested dict in place;
    [parameters] stands for the request as it is after each of them. *)
Definition _transform_model_parameters_for_fitting (func : pyval -> prog pyval)
  : pyval -> prog pyval :=
  fun parameters =>
    m <- lift (py_getitem parameters "model");;
    has_fp <- lift (py_contains "fitting_parameters" m);;
    if negb has_fp
    then Raise (ParameterNotFoundException msg_fitting_parameters)
    else
      fp <- lift (py_getitem m "fitting_parameters");;
      has_filter <- lift (py_contains "filter" fp);;
      parameters <-
        (if has_filter
         then
           input_filter <- lift (py_getitem fp "filter");;
           cls <- perform get_fitting_filter_class;;
           filter_object <- perform (filter_class_new cls input_filter);;
           value <- perform (get_value_as_model_parameter filter_object);;
           lift (py_setitem_path parameters
                   "model" ["fitting_parameters"; "filter"] value)
         else Ret parameters);;
      has_job <- lift (py_contains "job_id" parameters);;
      parameters <-
        (if has_job
         then
           job_id <- lift (py_getitem parameters "job_id");;
           lift (py_setitem_path parameters
                   "model" ["fitting_parameters"; "job_id"] job_id)
         else Ret parameters);;
      func parameters.

(** Lines 177 to 188. *)
Definition _get_model (input_model : pyval) : prog model :=
  id <- lift (py_get input_model "id");;
  if negb (truthy id)
  then Raise (ModelException msg_id)
  else
    cls <- perform get_model_class;;
    id <- lift (py_getitem input_model "id");;
    perform (model_class_new cls id).

(** Lines 72 to 84: the function under the three decorators of [fit]. *)
Definition fit_body (parameters : pyval) : prog pyval :=
  m <- lift (py_getitem parameters "model");;
  mdl <- _get_model m;;
  m <- lift (py_getitem parameters "model");;
  has_fp <- lift (py_contains "fitting_parameters" m);;
  if negb has_fp
  then Raise (ModelException msg_no_fitting_parameters)
  else
    m <- lift (py_getitem parameters "model");;
    fp <- lift (py_getitem m "fitting_parameters");;
    perform (model_fit mdl fp).

(** Lines 69 and 70: the two outer decorators of [fit], around whatever
    they decorate. *)
Definition fit_decorators (func : pyval -> prog pyval) : pyval -> prog pyval :=
  _check_input_parameters (_transform_model_parameters_for_fitting func).

(** Line 71: the function that the two outer decorators of [fit] wrap. *)
Definition fit_inner : pyval -> prog pyval :=
  decorators.execute_in_background background_indicator fit_body.

Definition fit : pyval -> prog pyval := fit_decorators fit_inner.

(** Lines 88 to 101. *)
Definition predict_body (parameters : pyval) : prog pyval :=
  has_inputs <- lift (py_contains "inputs" parameters);;
  if negb has_inputs
  then Raise (ParameterNotFoundException msg_inputs)
  else
    m <- lift (py_getitem parameters "model");;
    mdl <- _get_model m;;
    inputs <- lift (py_getitem parameters "inputs");;
    perform (model_predict mdl inputs).

Definition predict : pyval -> prog pyval :=
  _check_input_parameters predict_body.

(** Lines 105 to 120. *)
Definition initialize_body (parameters : pyval) : prog pyval :=
  m <- lift (py_get parameters "model");;
  if negb (truthy m)
  then Raise (ParameterNotFoundException msg_model)
  else
    db <- lift (py_get parameters "db");;
    if negb (truthy db)
    then Raise (ParameterNotFoundException msg_db)
    else
      m <- lift (py_getitem parameters "model");;
      mdl <- _get_model m;;
      m <- lift (py_getitem parameters "model");;
      perform (model_initialize mdl m).

Definition initialize : pyval -> prog pyval :=
  _check_input_parameters initialize_body.

(** Lines 124 to 140. *)
Definition drop_body (parameters : pyval) : prog pyval :=
  m <- lift (py_get parameters "model");;
  if negb (truthy m)
  then Raise (ParameterNotFoundException msg_model)
  else
    db <- lift (py_get parameters "db");;
    if negb (truthy db)
    then Raise (ParameterNotFoundException msg_db)
    else
      m <- lift (py_getitem parameters "model");;
      mdl <- _get_model m;;
      perform (model_drop mdl).

Definition drop : pyval -> prog pyval :=
  _check_input_parameters drop_body.

(** Lines 144 to 154. *)
Definition get_info_body (parameters : pyval) : prog pyval :=
  m <- lift (py_getitem parameters "model");;
  mdl <- _get_model m;;
  perform (model_get_info mdl).

Definition get_info : pyval -> prog pyval :=
  _check_input_parameters get_info_body.

(** Lines 157 to 166; no decorator. *)
Definition drop_fitting (parameters : pyval) : prog pyval :=
  m <- lift (py_getitem parameters "model");;
  mdl <- _get_model m;;
  perform (model_drop_fitting mdl).

(** What the function under the decorators of [fit] is expected to find. *)
Definition job_id_propagated (j : pyval) (p : pyval) : Prop :=
  py_getitem_path p ["model"; "fitting_parameters"; "job_id"] = inr j.

(** The model parameters of a request, when they are a dict, have no truthy
    [id]. *)
Definition lacks_id (p : pyval) : Prop :=
  forall m : gmap string pyval,
    py_getitem p "model" = inr (PDict m) ->
    truthy (default PNone (m !! "id")) = false.

End Controller.
End model_controller.

(** ** [src/actions.py] *)

Module actions.

Definition _get_version (parameters : pyval) : prog pyval :=
  perform get_version.

Definition _test (parameters : pyval) : prog pyval :=
  perform (general_test parameters).

Definition _ping (parameters : pyval) : prog pyval :=
  perform (general_ping parameters).

Definition get_actions : gmap string (pyval -> prog pyval) :=
  <["test" := _test]> (<["get_version" := _get_version]> (<["ping" := _ping]> ∅)).

End actions.

(** ** [src/vm_background_jobs/actions.py] *)

Module job_actions.

Definition _get_jobs_info (parameters : pyval) : prog pyval :=
  perform (controller_get_jobs_info parameters).

Definition _delete_background_job (parameters : pyval) : prog pyval :=
  perform (controller_delete_background_job parameters).

Definition get_actions : gmap string (pyval -> prog pyval) :=
  <["jobs_get_info" := _get_jobs_info]>
    (<["jobs_delete" := _delete_background_job]> ∅).

End job_actions.

(** ** The background-job subsystem *)

(** Modelled from the spec: the sources of [vm_background_jobs.controller]
    and of the launcher behind [execute_in_background] are missing.  What
    follows is sections 3, 4.1, 4.2 and 4.4 of the specification: Job Record,
    Job Registry, Job Launcher and worker, Query/Delete facade. *)

Module jobs.

(** Modelled from the spec: section 3, the four values of [status]. *)
Inductive job_status : Type := pending | running | completed | failed.

#[export] Instance job_status_eq_dec : EqDecision job_status.
Proof. solve_decision. Defined.

(** Modelled from the spec: section 3, the Job Record.  [job_id] is the
    record's [id]; a field that is absent is [None]. *)
Record job_record : Type := mk_job {
  job_id : string;
  status : job_status;
  start_date : option nat;
  end_date : option nat;
  worker_id : option nat;
  error_info : option string;
  payload_reference : pyval }.

(** Modelled from the spec: section 4.2, what [launch] hands to a worker,
    the callable and its parameters under the identifier of the job. *)
Record task : Type := mk_task {
  task_id : string;
  task_callable : pyval -> prog pyval;
  task_parameters : pyval }.

(** Modelled from the spec: sections 4.1, 4.2 and 5.  The state the
    subsystem owns: the registry (in insertion order), the
    identifiers generated so far, the launches that hold an identifier but
    have not inserted their record yet, the tasks handed off and not started,
    the tasks being run, and the clock that stamps the records. *)
Record jstate : Type := mk_jstate {
  registry : list job_record;
  issued : list string;
  launching : list task;
  queue : list task;
  active : list task;
  clock : nat }.

Definition init : jstate := mk_jstate [] [] [] [] [] 0.

Definition ids (reg : list job_record) : list string := job_id <$> reg.

Definition find_job (i : string) (reg : list job_record) : option job_record :=
  List.find (fun r => String.eqb (job_id r) i) reg.

Definition find_task (i : string) (ts : list task) : option task :=
  List.find (fun t => String.eqb (task_id t) i) ts.

Definition remove_task (i : string) (ts : list task) : list task :=
  filter (fun t => task_id t <> i) ts.

(** *** Section 4.1: the registry *)

(** Modelled from the spec: section 4.1, [insert]; [DuplicateIdError] when
    the identifier is already present. *)
Definition registry_insert (r : job_record) (reg : list job_record)
  : result (list job_record) :=
  match find_job (job_id r) reg with
  | Some _ => inl (DuplicateIdError (job_id r))
  | None => inr (reg ++ [r])
  end.

(** Position of a status in the lifecycle; the two terminal states share the
    last one, so that neither is left for the other. *)
Definition rank (s : job_status) : nat :=
  match s with
  | pending => 0
  | running => 1
  | completed => 2
  | failed => 2
  end.

(** The fields an update may set besides the status. *)
Record update : Type := mk_update {
  upd_start : option nat;
  upd_end : option nat;
  upd_worker : option nat;
  upd_error : option string }.

Definition or_else {A : Type} (new old : option A) : option A :=
  match new with
  | Some _ => new
  | None => old
  end.

Definition apply_update (s : job_status) (u : update) (r : job_record) : job_record :=
  mk_job (job_id r) s
    (or_else (upd_start u) (start_date r))
    (or_else (upd_end u) (end_date r))
    (or_else (upd_worker u) (worker_id r))
    (or_else (upd_error u) (error_info r))
    (payload_reference r).

(** Modelled from the spec: section 4.1, [update_status]; [NotFoundError]
    for an unknown identifier, [InvalidTransitionError] when the status
    would not move forward. *)
Definition registry_update_status (i : string) (s : job_status) (u : update)
  (reg : list job_record) : result (list job_record) :=
  match find_job i reg with
  | None => inl (NotFoundError (PStr i))
  | Some r =>
      if rank (status r) <? rank s
      then inr ((fun r' => if String.eqb (job_id r') i then apply_update s u r' else r') <$> reg)
      else inl (InvalidTransitionError i)
  end.

(** Modelled from the spec: section 4.1, [delete], permitted in any status;
    [NotFoundError] when the record is absent. *)
Definition registry_delete (i : string) (reg : list job_record)
  : result (list job_record) :=
  match find_job i reg with
  | None => inl (NotFoundError (PStr i))
  | Some _ => inr (filter (fun r => job_id r <> i) reg)
  end.

Definition status_name (s : job_status) : string :=
  match s with
  | pending => "pending"
  | running => "running"
  | completed => "completed"
  | failed => "failed"
  end.

Definition date_in (lo hi : option pyval) (d : option nat) : bool :=
  (match lo with
   | None => true
   | Some (PInt z) => match d with Some t => (z <=? Z.of_nat t)%Z | None => false end
   | Some _ => false
   end)
  &&
  (match hi with
   | None => true
   | Some (PInt z) => match d with Some t => (Z.of_nat t <=? z)%Z | None => false end
   | Some _ => false
   end).

(** Modelled from the spec: section 4.1, the filter of [query]: optional
    predicates over [id], [status] and the range of [start_date] (named as
    in section 6); a predicate that is absent holds. *)
Definition matches (flt : pyval) (r : job_record) : bool :=
  match flt with
  | PDict d =>
      (match d !! "id" with None => true | Some v => py_eq_str (job_id r) v end)
      && (match d !! "status" with
          | None => true
          | Some v => py_eq_str (status_name (status r)) v
          end)
      && date_in (d !! "start_date_from") (d !! "start_date_to") (start_date r)
  | _ => true
  end.

(** Modelled from the spec: section 4.1, [query]; the matching records in
    insertion order, all of them for an empty filter. *)
Definition registry_query (flt : pyval) (reg : list job_record) : list job_record :=
  filter (fun r => matches flt r = true) reg.

(** *** Section 4.4: the facade *)

Definition opt_nat (o : option nat) : pyval :=
  match o with
  | Some n => PInt (Z.of_nat n)
  | None => PNone
  end.

(** Modelled from the spec: section 4.4, the default projection, with
    [error_info] for a failed job (which the spec allows). *)
Definition job_info (r : job_record) : pyval :=
  let base : gmap string pyval :=
    <["id" := PStr (job_id r)]>
      (<["status" := PStr (status_name (status r))]>
         (<["start_date" := opt_nat (start_date r)]>
            (<["end_date" := opt_nat (end_date r)]>
               (<["worker_id" := opt_nat (worker_id r)]> ∅)))) in
  match status r, error_info r with
  | failed, Some msg => PDict (<["error_info" := PStr msg]> base)
  | _, _ => PDict base
  end.

(** Modelled from the spec: section 4.4, [get_jobs_info] delegates to
    [query]. *)
Definition get_jobs_info (parameters : pyval) (s : jstate) : result pyval :=
  inr (PList (job_info <$> registry_query parameters (registry s))).

Definition set_registry (reg : list job_record) (s : jstate) : jstate :=
  mk_jstate reg (issued s) (launching s) (queue s) (active s) (clock s).

(** The identifier a delete request refers to: the [id] entry of its
    parameters. *)
Definition referenced_id (parameters : pyval) : pyval :=
  match parameters with
  | PDict d => default PNone (d !! "id")
  | _ => PNone
  end.

Definition confirmation : string := "deleted".

(** Modelled from the spec: sections 4.4 and 6, [NotFoundError] as a
    reported error: the value that the request returns in place of the
    confirmation, not an exception that ends it.  The spec does not give the
    form of the report; here the kind of the error and what the request
    referred to. *)
Definition reported_not_found (ref : pyval) : pyval :=
  PDict (<["error" := PStr "NotFoundError"]> (<["id" := ref]> ∅)).

(** Modelled from the spec: section 4.4, [delete_background_job] delegates
    to [delete] and returns the confirmation or, when the registry answers
    [NotFoundError], the reported error.  A reference that is not a string is
    the identifier of no record.  The spec does not give the text of the
    confirmation. *)
Definition delete_background_job (parameters : pyval) (s : jstate)
  : result pyval * jstate :=
  match referenced_id parameters with
  | PStr i =>
      match registry_delete i (registry s) with
      | inl (NotFoundError ref) => (inr (reported_not_found ref), s)
      | inl e => (inl e, s)
      | inr reg => (inr (PStr confirmation), set_registry reg s)
      end
  | ref => (inr (reported_not_found ref), s)
  end.

(** Modelled from the spec: section 3, the human-readable description that
    a failure leaves in [error_info]. *)
Definition describe (e : exn) : string :=
  match e with
  | ParameterNotFoundException msg => msg
  | ModelException msg => msg
  | KeyError key => "KeyError: " +:+ key
  | TypeError => "TypeError"
  | AttributeError => "AttributeError"
  | NotFoundError _ => "NotFoundError"
  | DuplicateIdError i => "DuplicateIdError: " +:+ i
  | InvalidTransitionError i => "InvalidTransitionError: " +:+ i
  | OtherException _ msg => msg
  end.

(** *** Section 4.2: launcher and worker *)

Section Launcher.

(** The generation scheme of identifiers, given those generated so far, and
    the collaborators of the programs: their state and what they answer. *)
Variable next_id : list string -> string.
Variable E : Type.
Variable oracle : forall X : Type, call X -> E -> result X * E.

Definition new_record (i : string) (parameters : pyval) : job_record :=
  mk_job i pending None None None None parameters.

(** Modelled from the spec: section 4.2, step 1 of [launch]: generate the
    identifier. *)
Definition alloc_id (callable : pyval -> prog pyval) (parameters : pyval) (s : jstate)
  : string * jstate :=
  let i := next_id (issued s) in
  (i, mk_jstate (registry s) (i :: issued s)
        (launching s ++ [mk_task i callable parameters])
        (queue s) (active s) (clock s)).

(** Modelled from the spec: section 4.2, steps 2 and 3 of [launch]: insert
    the pending record, hand the task off. *)
Definition insert_launched (i : string) (s : jstate) : result string * jstate :=
  match find_task i (launching s) with
  | None => (inl (NotFoundError (PStr i)), s)
  | Some t =>
      match registry_insert (new_record i (task_parameters t)) (registry s) with
      | inl e =>
          (inl e, mk_jstate (registry s) (issued s) (remove_task i (launching s))
                    (queue s) (active s) (clock s))
      | inr reg =>
          (inr i, mk_jstate reg (issued s) (remove_task i (launching s))
                    (queue s ++ [t]) (active s) (clock s))
      end
  end.

(** Modelled from the spec: section 4.2, [launch(callable, parameters)] run
    in one piece. *)
Definition launch (callable : pyval -> prog pyval) (parameters : pyval) (s : jstate)
  : result string * jstate :=
  let '(i, s1) := alloc_id callable parameters s in
  insert_launched i s1.

(** The state in which a [launch] that succeeds leaves the subsystem: the
    pending record is in the registry and the task is handed off. *)
Definition launched (callable : pyval -> prog pyval) (parameters : pyval) (s : jstate)
  : jstate :=
  let i := next_id (issued s) in
  mk_jstate (registry s ++ [new_record i parameters]) (i :: issued s)
    (launching s) (queue s ++ [mk_task i callable parameters])
    (active s) (clock s).

(** The update of a worker; one that the registry refuses leaves the
    registry as it is (the spec leaves open what becomes of a job whose
    record is deleted while it runs). *)
Definition try_update (i : string) (st : job_status) (u : update)
  (reg : list job_record) : list job_record :=
  match registry_update_status i st u reg with
  | inr reg' => reg'
  | inl _ => reg
  end.

(** Modelled from the spec: section 4.2, step 4, before the callable is
    invoked. *)
Definition worker_start (wid : nat) (i : string) (s : jstate) : jstate :=
  match find_task i (queue s) with
  | None => s
  | Some t =>
      mk_jstate
        (try_update i running (mk_update (Some (clock s)) None (Some wid) None)
           (registry s))
        (issued s) (launching s) (remove_task i (queue s)) (active s ++ [t])
        (S (clock s))
  end.

(** Modelled from the spec: section 4.2, steps 5 and 6, once the callable
    has returned or raised. *)
Definition worker_finish (i : string) (outcome : result pyval) (s : jstate) : jstate :=
  match find_task i (active s) with
  | None => s
  | Some _ =>
      mk_jstate
        (match outcome with
         | inr _ =>
             try_update i completed (mk_update None (Some (clock s)) None None)
               (registry s)
         | inl e =>
             try_update i failed
               (mk_update None (Some (clock s)) None (Some (describe e)))
               (registry s)
         end)
        (issued s) (launching s) (queue s) (remove_task i (active s))
        (S (clock s))
  end.

Record world : Type := mk_world {
  jobs_of : jstate;
  ext : E }.

(** What a call answers: the job controller answers from the registry, the
    other collaborators from their own state. *)
Definition answer {X : Type} (c : call X) (w : world) : result X * world :=
  match c in call X0 return result X0 * world with
  | controller_get_jobs_info p => (get_jobs_info p (jobs_of w), w)
  | controller_delete_background_job p =>
      let '(r, s) := delete_background_job p (jobs_of w) in
      (r, mk_world s (ext w))
  | c' =>
      let '(r, e) := oracle _ c' (ext w) in
      (r, mk_world (jobs_of w) e)
  end.

(** [launch] on the state of the whole service. *)
Definition launch_in (callable : pyval -> prog pyval) (parameters : pyval) (w : world)
  : result string * world :=
  let '(a, s) := launch callable parameters (jobs_of w) in
  (a, mk_world s (ext w)).

(** A program run to its end by one thread of the service. *)
Definition exec {R : Type} (p : prog R) (w : world) : result R * world :=
  interp (@answer) launch_in p w.

(** Modelled from the spec: section 4.2, the worker of job [i] from start
    to end.  What the callable returns or raises goes into the record and
    nowhere else. *)
Definition run_worker (wid : nat) (i : string) (w : world) : world :=
  match find_task i (queue (jobs_of w)) with
  | None => w
  | Some t =>
      let w1 := mk_world (worker_start wid i (jobs_of w)) (ext w) in
      let '(outcome, w2) := exec (task_callable t (task_parameters t)) w1 in
      mk_world (worker_finish i outcome (jobs_of w2)) (ext w2)
  end.

(** Modelled from the spec: section 5.  Every access to the registry is one
    atomic operation, and
    launchers, workers and requests interleave freely.  One step is one such
    operation by any of them. *)
Inductive step : jstate -> jstate -> Prop :=
| step_alloc callable parameters s :
    step s (snd (alloc_id callable parameters s))
| step_insert i s :
    step s (snd (insert_launched i s))
| step_start wid i s :
    step s (worker_start wid i s)
| step_finish i outcome s :
    step s (worker_finish i outcome s)
| step_delete parameters s :
    step s (snd (delete_background_job parameters s)).

Definition reachable (s : jstate) : Prop := rtc step init s.

(** Identifiers in use: held by a launch or by a record. *)
Definition in_use (s : jstate) : list string :=
  (task_id <$> launching s) ++ ids (registry s).

(** Identifiers are generated once, an identifier in use is held once, and
    whatever holds an identifier got it from the generator. *)
Definition wf (s : jstate) : Prop :=
  NoDup (issued s)
  /\ NoDup (in_use s)
  /\ (forall i, i ∈ in_use s -> i ∈ issued s)
  /\ (forall i, i ∈ task_id <$> (queue s ++ active s) -> i ∈ issued s).

End Launcher.

Arguments mk_world {E} jobs_of ext.
Arguments jobs_of {E} w.
Arguments ext {E} w.
Arguments answer {E} oracle {X} c w.
Arguments launch_in next_id {E} callable parameters w.
Arguments exec next_id {E} oracle {R} p w.
Arguments run_worker next_id {E} oracle wid i w.

(** Modelled from the spec: section 7, the generation scheme, of the two
    that the spec names the monotonic counter guarded by the registry (random
    identifiers are distinct with high probability only).  The counter is
    the number of identifiers generated so far; [alloc_id] reads and
    advances it in one step, and the identifier is the counter in decimal. *)
Definition counter_id (generated : list string) : string :=
  pretty (length generated).

(** What the counter has generated: the values below it. *)
Definition counted (l : list string) : Prop :=
  forall i, i ∈ l -> exists n, n < length l /\ i = pretty n.

(** A task and the record of its job: a launch that has not inserted its
    record is known to no worker; the record of a task that waits for its
    worker, if it is still there, is [pending], and that of a task being run
    is [running]. *)
Definition consistent (s : jstate) : Prop :=
  wf s
  /\ (forall i, i ∈ task_id <$> launching s ->
                i ∉ task_id <$> (queue s ++ active s))
  /\ (forall i r, i ∈ task_id <$> queue s ->
                  find_job i (registry s) = Some r -> status r = pending)
  /\ (forall i r, i ∈ task_id <$> active s ->
                  find_job i (registry s) = Some r -> status r = running).

(** What the worker of a job writes when the callable has raised [e]. *)
Definition failure_update (e : exn) (s : jstate) : update :=
  mk_update None (Some (clock s)) None (Some (describe e)).

End jobs.

(** ** Shapes of programs and of requests *)

(** The exceptions of the dict operations. *)
Definition is_builtin (e : exn) : bool :=
  match e with
  | KeyError _ | TypeError | AttributeError => true
  | _ => false
  end.

Definition is_dict (v : pyval) : bool :=
  match v with
  | PDict _ => true
  | _ => false
  end.

(** The program itself never raises [e], neither directly nor in a job it
    launches; what its collaborators raise is not the program's doing. *)
Inductive never_raises (e : exn) : forall {R : Type}, prog R -> Prop :=
| nr_ret R (r : R) : never_raises e (Ret r)
| nr_raise R e' : e' <> e -> never_raises e (@Raise R e')
| nr_call R X (c : call X) (k : X -> prog R) :
    (forall x, never_raises e (k x)) ->
    never_raises e (Call c k)
| nr_launch R callable parameters (k : string -> prog R) :
    never_raises e (callable parameters) ->
    (forall i, never_raises e (k i)) ->
    never_raises e (Launch callable parameters k).

(** The program asks for the filter class, builds a filter from [flt], asks
    it for its value as a model parameter and goes on as [k] at that
    value. *)
Definition converts_filter (flt : pyval) (k : pyval -> prog pyval)
  (p : prog pyval) : Prop :=
  exists k1,
    p = Call get_fitting_filter_class k1
    /\ forall cls, exists k2,
         k1 cls = Call (filter_class_new cls flt) k2
         /\ forall fo, exists k3,
              k2 fo = Call (get_value_as_model_parameter fo) k3
              /\ forall value, k3 value = k value.

(** The program resolves the model of identifier [i] and goes on as [k] at
    the model: [get_model_class()(i)]. *)
Definition on_model (i : pyval) (k : model -> prog pyval) : prog pyval :=
  Call get_model_class (fun cls => Call (model_class_new cls i) k).

(** The model parameters of the request are a dict that holds
    [fitting_parameters]. *)
Definition has_fitting_parameters (p : pyval) : Prop :=
  exists (d m : gmap string pyval) (v : pyval),
    p = PDict d /\ d !! "model" = Some (PDict m)
    /\ m !! "fitting_parameters" = Some v.

(** The request [d], whose model parameters are [m], with [fp] for fitting
    parameters. *)
Definition with_fitting_parameters (d m fp : gmap string pyval) : pyval :=
  PDict (<["model" := PDict (<["fitting_parameters" := PDict fp]> m)]> d).

(** [fp[k] = x] when there is an [x]. *)
Definition set_if_given (k : string) (o : option pyval)
  (fp : gmap string pyval) : gmap string pyval :=
  match o with
  | Some x => <[k := x]> fp
  | None => fp
  end.

(** [p'] is the request [d], of model parameters [m] and fitting parameters
    [fp], but for the entries [filter] and [job_id] of its fitting
    parameters. *)
Definition same_but_filter_and_job_id (d m fp : gmap string pyval)
  (p' : pyval) : Prop :=
  exists d' m' fp' : gmap string pyval,
    p' = PDict d'
    /\ (forall k, k <> "model" -> d' !! k = d !! k)
    /\ d' !! "model" = Some (PDict m')
    /\ (forall k, k <> "fitting_parameters" -> m' !! k = m !! k)
    /\ m' !! "fitting_parameters" = Some (PDict fp')
    /\ (forall k, k <> "filter" -> k <> "job_id" -> fp' !! k = fp !! k).

(** ** Requests used as examples *)

Module requests.

(** [{}] *)
Definition empty : pyval := PDict ∅.

(** [{'model': {'id': 'm1'}}] *)
Definition model_only : pyval :=
  PDict (<["model" := PDict (<["id" := PStr "m1"]> ∅)]> ∅).

(** [{'model': {'name': 'm'}}] *)
Definition model_without_id : pyval :=
  PDict (<["model" := PDict (<["name" := PStr "m"]> ∅)]> ∅).

(** [{'job_id': 'j1', 'model': {'id': 'm1', 'fitting_parameters': {'epochs': 3}}}] *)
Definition fit_request : pyval :=
  PDict (<["job_id" := PStr "j1"]>
           (<["model" :=
                PDict (<["id" := PStr "m1"]>
                         (<["fitting_parameters" :=
                              PDict (<["epochs" := PInt 3]> ∅)]> ∅))]> ∅)).

(** [{'job_id': 'j1', 'model': {'fitting_parameters': None}}] *)
Definition fit_request_null : pyval :=
  PDict (<["job_id" := PStr "j1"]>
           (<["model" := PDict (<["fitting_parameters" := PNone]> ∅)]> ∅)).

(** [{'id': 'no-such-job'}] *)
Definition delete_unknown : pyval :=
  PDict (<["id" := PStr "no-such-job"]> ∅).

(** No request asks for background execution; every request does. *)
Definition never : pyval -> bool := fun _ => false.
Definition always : pyval -> bool := fun _ => true.

(** A generation scheme: an identifier longer than every identifier
    generated so far. *)
Definition concat_id (l : list string) : string :=
  String "j" (fold_right String.append EmptyString l).

(** Collaborators that are all out of service. *)
Definition out_of_service (X : Type) (c : call X) (e : unit) : result X * unit :=
  (inl (OtherException "ConnectionError" "out of service"), e).

(** A callable that fails. *)
Definition disk_full (parameters : pyval) : prog pyval :=
  Raise (OtherException "OSError" "disk full").

End requests.

(** ** More requests *)

Module more_requests.

(** [{'id': 'm1'}] *)
Definition model_m1 : gmap string pyval := <["id" := PStr "m1"]> ∅.

(** [{'model': {'id': 'm1'}, 'db': ''}] *)
Definition model_and_empty_db : gmap string pyval :=
  <["db" := PStr ""]> (<["model" := PDict model_m1]> ∅).

(** [{'model': {'id': 'm1'}, 'db': 'db1'}] *)
Definition model_and_db : gmap string pyval :=
  <["db" := PStr "db1"]> (<["model" := PDict model_m1]> ∅).

(** [{'model': {'id': 'm1'}, 'inputs': None}] *)
Definition predict_none : gmap string pyval :=
  <["inputs" := PNone]> (<["model" := PDict model_m1]> ∅).

(** [{'model': 'm1', 'inputs': [], 'db': 'db1'}] *)
Definition model_as_string : gmap string pyval :=
  <["db" := PStr "db1"]> (<["inputs" := PList []]> (<["model" := PStr "m1"]> ∅)).

(** [{'db': 'db1'}] *)
Definition db_only : gmap string pyval := <["db" := PStr "db1"]> ∅.

(** [{'epochs': 3}] *)
Definition epochs : gmap string pyval := <["epochs" := PInt 3]> ∅.

(** [{'id': 'm1', 'fitting_parameters': {'epochs': 3}}] *)
Definition model_to_fit : gmap string pyval :=
  <["id" := PStr "m1"]> (<["fitting_parameters" := PDict epochs]> ∅).

(** [{'model': {'id': 'm1', 'fitting_parameters': {'epochs': 3}}}] *)
Definition plain_fit : gmap string pyval :=
  <["model" := PDict model_to_fit]> ∅.

(** [{'job_id': 'j1', 'model': {'id': 'm1', 'fitting_parameters': {'epochs': 3}}}] *)
Definition job_fit : gmap string pyval :=
  <["job_id" := PStr "j1"]> (<["model" := PDict model_to_fit]> ∅).

(** [{'year': 2020}] *)
Definition year_filter : pyval := PDict (<["year" := PInt 2020]> ∅).

(** [{'epochs': 3, 'filter': {'year': 2020}}] *)
Definition filtered_epochs : gmap string pyval :=
  <["epochs" := PInt 3]> (<["filter" := year_filter]> ∅).

(** [{'id': 'm1', 'fitting_parameters': {'epochs': 3, 'filter': {'year': 2020}}}] *)
Definition filtered_model : gmap string pyval :=
  <["id" := PStr "m1"]> (<["fitting_parameters" := PDict filtered_epochs]> ∅).

(** [{'job_id': 'j1', 'model': {'id': 'm1', 'fitting_parameters':
      {'epochs': 3, 'filter': {'year': 2020}}}}] *)
Definition filtered_fit : gmap string pyval :=
  <["job_id" := PStr "j1"]> (<["model" := PDict filtered_model]> ∅).

End more_requests.

(** * Properties of the sources *)

(** ** Python values and programs *)

Lemma truthy_dict_lookup (d : gmap string pyval) (k : string) (v : pyval) :
  d !! k = Some v -> truthy (PDict d) = true.
Proof.
  intros Hk. simpl.
  destruct (Nat.eqb_spec (size d) 0) as [Hz | Hnz]; [| reflexivity].
  apply map_size_empty_iff in Hz. subst d.
  rewrite lookup_empty in Hk. discriminate.
Qed.

Lemma bind_lift_inr {A B : Type} (a : A) (f : A -> prog B) :
  (x <- lift (inr a);; f x) = f a.
Proof. reflexivity. Qed.

Lemma py_get_dict (d : gmap string pyval) (k : string) (v : pyval) :
  d !! k = Some v -> py_get (PDict d) k = inr v.
Proof. intros H. unfold py_get. rewrite H. reflexivity. Qed.

Lemma py_getitem_dict (d : gmap string pyval) (k : string) (v : pyval) :
  d !! k = Some v -> py_getitem (PDict d) k = inr v.
Proof. intros H. unfold py_getitem. rewrite H. reflexivity. Qed.

Lemma py_contains_dict_some (d : gmap string pyval) (k : string) (v : pyval) :
  d !! k = Some v -> py_contains k (PDict d) = inr true.
Proof. intros H. unfold py_contains. rewrite H. reflexivity. Qed.

Lemma py_contains_dict_none (d : gmap string pyval) (k : string) :
  d !! k = None -> py_contains k (PDict d) = inr false.
Proof. intros H. unfold py_contains. rewrite H. reflexivity. Qed.

(** The shape of a successful assignment two levels below the top. *)
Lemma py_setitem_path_inv (p p' : pyval) (k1 k2 k3 : string) (x : pyval) :
  py_setitem_path p k1 [k2; k3] x = inr p' ->
  exists d m f : gmap string pyval,
    p = PDict d /\ d !! k1 = Some (PDict m) /\ m !! k2 = Some (PDict f)
    /\ p' = PDict (<[k1 := PDict (<[k2 := PDict (<[k3 := x]> f)]> m)]> d).
Proof.
  intros H. cbn [py_setitem_path] in H.
  destruct p as [| | | | | |d]; try discriminate H.
  cbn [py_getitem] in H.
  destruct (d !! k1) as [[| | | | | |m] |] eqn:Hd; try discriminate H.
  cbn [py_getitem] in H.
  destruct (m !! k2) as [[| | | | | |f] |] eqn:Hm; try discriminate H.
  cbn [py_setitem] in H. injection H as <-.
  exists d, m, f. repeat split; assumption.
Qed.

(** ** The model controller *)

Section ControllerProperties.

Variable background_indicator : pyval -> bool.

Import model_controller.

Local Abbreviation fit := (model_controller.fit background_indicator).
Local Abbreviation fit_inner := (model_controller.fit_inner background_indicator).

(** The decorator raises before the function it decorates is looked at. *)
Lemma _check_input_parameters_rejects (func : pyval -> prog pyval)
  (d : gmap string pyval) (v : pyval) :
  py_get (PDict d) "model" = inr v ->
  truthy v = false ->
  _check_input_parameters func (PDict d)
  = Raise (ParameterNotFoundException msg_model).
Proof.
  intros Hget Hv. unfold _check_input_parameters.
  rewrite Hget, bind_lift_inr, Hv. reflexivity.
Qed.

Lemma _check_input_parameters_passes (func : pyval -> prog pyval)
  (d : gmap string pyval) (m : pyval) :
  d !! "model" = Some m ->
  truthy m = true ->
  _check_input_parameters func (PDict d) = func (PDict d).
Proof.
  intros Hm Ht. unfold _check_input_parameters. simpl.
  rewrite Hm. simpl. rewrite Ht. reflexivity.
Qed.

(** C2. When [parameters.get('model')] is absent or falsy, each of [fit],
    [predict], [initialize], [drop] and [get_info] raises
    [ParameterNotFoundException]: the program is that [Raise] and nothing
    else, so the function under the decorator is not invoked, whichever
    function it is. *)
Theorem missing_model_raises_before_handler
  (d : gmap string pyval) (v : pyval) :
  py_get (PDict d) "model" = inr v ->
  truthy v = false ->
  let e := ParameterNotFoundException msg_model in
  fit (PDict d) = Raise e
  /\ predict (PDict d) = Raise e
  /\ initialize (PDict d) = Raise e
  /\ drop (PDict d) = Raise e
  /\ get_info (PDict d) = Raise e
  /\ (forall func, _check_input_parameters func (PDict d) = Raise e).
Proof.
  intros Hget Hv e.
  repeat split; try intros func;
    apply (_check_input_parameters_rejects _ d v Hget Hv).
Qed.

(** C9. With a truthy [model] and no [inputs] key, [predict] raises
    [ParameterNotFoundException] and has called nothing before: no model
    class is asked for, no model is constructed. *)
Theorem predict_without_inputs_raises
  (d : gmap string pyval) (m : pyval) :
  d !! "model" = Some m ->
  truthy m = true ->
  d !! "inputs" = None ->
  predict (PDict d) = Raise (ParameterNotFoundException msg_inputs).
Proof.
  intros Hm Ht Hin. unfold predict.
  rewrite (_check_input_parameters_passes _ d m Hm Ht).
  unfold predict_body. simpl. rewrite Hin. reflexivity.
Qed.

(** *** Propagation of the job identifier *)

Lemma set_job_id (d m fp : gmap string pyval) (j : pyval) :
  d !! "model" = Some (PDict m) ->
  m !! "fitting_parameters" = Some (PDict fp) ->
  exists p',
    py_setitem_path (PDict d) "model" ["fitting_parameters"; "job_id"] j = inr p'
    /\ job_id_propagated j p'.
Proof.
  intros Hm Hfp. eexists. split.
  - cbn [py_setitem_path]. rewrite (py_getitem_dict _ _ _ Hm).
    rewrite (py_getitem_dict _ _ _ Hfp). cbn [py_setitem]. reflexivity.
  - unfold job_id_propagated. cbn [py_getitem_path].
    rewrite (py_getitem_dict _ "model" _ (lookup_insert_eq _ _ _)).
    rewrite (py_getitem_dict _ "fitting_parameters" _ (lookup_insert_eq _ _ _)).
    rewrite (py_getitem_dict _ "job_id" _ (lookup_insert_eq _ _ _)).
    reflexivity.
Qed.

(** Lines 60 to 64 of the wrapper, once the filter is dealt with. *)
Lemma job_id_step (func : pyval -> prog pyval) (d m fp : gmap string pyval)
  (j : pyval) :
  d !! "job_id" = Some j ->
  d !! "model" = Some (PDict m) ->
  m !! "fitting_parameters" = Some (PDict fp) ->
  invokes func (job_id_propagated j)
    (has_job <- lift (py_contains "job_id" (PDict d));;
     parameters <-
       (if has_job
        then
          job_id <- lift (py_getitem (PDict d) "job_id");;
          lift (py_setitem_path (PDict d)
                  "model" ["fitting_parameters"; "job_id"] job_id)
        else Ret (PDict d));;
     func parameters).
Proof.
  intros Hj Hm Hfp.
  rewrite (py_contains_dict_some _ _ _ Hj). cbn [lift bind].
  rewrite (py_getitem_dict _ _ _ Hj). cbn [lift bind].
  destruct (set_job_id d m fp j Hm Hfp) as (p' & Hset & HQ).
  rewrite Hset. cbn [lift bind]. constructor. exact HQ.
Qed.

Lemma fit_decorators_propagate (func : pyval -> prog pyval)
  (d m fp : gmap string pyval) (j : pyval) :
  d !! "job_id" = Some j ->
  d !! "model" = Some (PDict m) ->
  m !! "fitting_parameters" = Some (PDict fp) ->
  invokes func (job_id_propagated j) (fit_decorators func (PDict d)).
Proof.
  intros Hj Hm Hfp. unfold fit_decorators.
  rewrite (_check_input_parameters_passes _ d (PDict m) Hm
             (truthy_dict_lookup _ _ _ Hfp)).
  unfold _transform_model_parameters_for_fitting.
  rewrite (py_getitem_dict _ _ _ Hm). cbn [lift bind].
  rewrite (py_contains_dict_some _ _ _ Hfp). cbn [lift bind negb].
  rewrite (py_getitem_dict _ _ _ Hfp). cbn [lift bind].
  destruct (fp !! "filter") as [flt |] eqn:Hflt.
  - rewrite (py_contains_dict_some _ _ _ Hflt). cbn [lift bind].
    rewrite (py_getitem_dict _ _ _ Hflt). cbn [lift bind perform].
    apply inv_call; intros cls. apply inv_call; intros fo.
    apply inv_call; intros value.
    cbn [py_setitem_path]. rewrite (py_getitem_dict _ _ _ Hm).
    rewrite (py_getitem_dict _ _ _ Hfp). cbn [py_setitem lift bind].
    apply job_id_step
      with (m := <["fitting_parameters" := PDict (<["filter" := value]> fp)]> m)
           (fp := <["filter" := value]> fp).
    + rewrite lookup_insert_ne by discriminate. exact Hj.
    + apply lookup_insert_eq.
    + apply lookup_insert_eq.
  - rewrite (py_contains_dict_none _ _ Hflt). cbn [lift bind].
    apply job_id_step with (m := m) (fp := fp); assumption.
Qed.

(** C1, amended.  When the parameters hold [job_id], their [model] entry is
    a dict and its [fitting_parameters] entry is a dict, [fit] invokes the
    function under its two outer decorators (once the filter collaborators,
    called only for a [filter] key, have returned) at parameters whose
    [['model']['fitting_parameters']['job_id']] is the top-level [job_id].
    The same holds of whatever function stands under the decorators. *)
Theorem fit_propagates_job_id (d m fp : gmap string pyval) (j : pyval) :
  d !! "job_id" = Some j ->
  d !! "model" = Some (PDict m) ->
  m !! "fitting_parameters" = Some (PDict fp) ->
  invokes fit_inner (job_id_propagated j) (fit (PDict d))
  /\ forall func, invokes func (job_id_propagated j) (fit_decorators func (PDict d)).
Proof.
  intros Hj Hm Hfp. split; [| intros func];
    apply fit_decorators_propagate with (m := m) (fp := fp); assumption.
Qed.

(** *** Model parameters without an [id] *)

Ltac step_lift :=
  match goal with
  | |- never_creates_model (bind (lift ?r) _) =>
      let H := fresh "H" in destruct r as [? | ?] eqn:H; cbn [lift bind]
  | |- never_creates_model (bind (bind (lift ?r) _) _) =>
      let H := fresh "H" in destruct r as [? | ?] eqn:H; cbn [lift bind]
  | |- never_creates_model (Raise _) => constructor
  | |- never_creates_model (if negb ?b then _ else _) => destruct b; cbn [negb]
  | |- never_creates_model (bind (if ?b then _ else _) _) => destruct b; cbn [lift bind perform]
  | |- never_creates_model (Call _ _) => apply ncm_call; [reflexivity | intros ?]
  | |- never_creates_model (bind (Ret _) _) => cbn [bind]
  end.

Lemma _get_model_rejects (m : gmap string pyval) :
  truthy (default PNone (m !! "id")) = false ->
  _get_model (PDict m) = Raise (ModelException msg_id).
Proof.
  intros H. unfold _get_model. cbn [py_get lift bind]. rewrite H. reflexivity.
Qed.

Lemma get_model_bind_never_creates (p v : pyval) (k : model -> prog pyval) :
  lacks_id p ->
  py_getitem p "model" = inr v ->
  never_creates_model (mdl <- _get_model v;; k mdl).
Proof.
  intros H Hg. destruct v as [| | | | | |m]; try (cbn; constructor).
  rewrite (_get_model_rejects m (H m Hg)). cbn [bind]. constructor.
Qed.

Ltac resolve_model :=
  repeat step_lift; eapply get_model_bind_never_creates; eassumption.

Lemma fit_body_never_creates (p : pyval) : lacks_id p -> never_creates_model (fit_body p).
Proof. intros H. unfold fit_body. resolve_model. Qed.

Lemma lacks_id_setitem (p p' : pyval) (k : string) (x : pyval) :
  py_setitem_path p "model" ["fitting_parameters"; k] x = inr p' ->
  lacks_id p -> lacks_id p'.
Proof.
  intros Hset Hp.
  apply py_setitem_path_inv in Hset as (d & m & f & -> & Hd & Hm & ->).
  intros m' Hm'. rewrite (py_getitem_dict _ _ _ (lookup_insert_eq _ _ _)) in Hm'.
  injection Hm' as <-. rewrite lookup_insert_ne by discriminate.
  apply Hp. apply py_getitem_dict. exact Hd.
Qed.

Lemma transform_never_creates (func : pyval -> prog pyval) (p : pyval) :
  (forall p', lacks_id p' -> never_creates_model (func p')) ->
  lacks_id p ->
  never_creates_model (_transform_model_parameters_for_fitting func p).
Proof.
  intros Hf Hp. unfold _transform_model_parameters_for_fitting.
  repeat step_lift.
  all: repeat match goal with
         | H : py_setitem_path _ _ _ _ = inr _ |- _ =>
             apply lacks_id_setitem in H; [| assumption]
         end.
  all: try (apply Hf; assumption).
  all: repeat step_lift.
  all: repeat match goal with
         | H : py_setitem_path _ _ _ _ = inr _ |- _ =>
             apply lacks_id_setitem in H; [| assumption]
         end.
  all: try (apply Hf; assumption).
Qed.

Lemma check_never_creates (func : pyval -> prog pyval) (p : pyval) :
  never_creates_model (func p) ->
  never_creates_model (_check_input_parameters func p).
Proof.
  intros H. unfold _check_input_parameters. repeat step_lift. exact H.
Qed.

Lemma fit_inner_never_creates (p : pyval) :
  lacks_id p -> never_creates_model (fit_inner p).
Proof.
  intros H. unfold model_controller.fit_inner, decorators.execute_in_background.
  destruct (background_indicator p).
  - constructor; [apply fit_body_never_creates; exact H | intros; constructor].
  - apply fit_body_never_creates; exact H.
Qed.

Lemma fit_never_creates (p : pyval) : lacks_id p -> never_creates_model (fit p).
Proof.
  intros H. apply check_never_creates. apply transform_never_creates; [| exact H].
  apply fit_inner_never_creates.
Qed.

Lemma predict_never_creates (p : pyval) : lacks_id p -> never_creates_model (predict p).
Proof.
  intros H. apply check_never_creates. unfold predict_body.
  resolve_model.
Qed.

Lemma initialize_never_creates (p : pyval) : lacks_id p -> never_creates_model (initialize p).
Proof.
  intros H. apply check_never_creates. unfold initialize_body.
  resolve_model.
Qed.

Lemma drop_never_creates (p : pyval) : lacks_id p -> never_creates_model (drop p).
Proof.
  intros H. apply check_never_creates. unfold drop_body.
  resolve_model.
Qed.

Lemma get_info_never_creates (p : pyval) : lacks_id p -> never_creates_model (get_info p).
Proof.
  intros H. apply check_never_creates. unfold get_info_body.
  resolve_model.
Qed.

Lemma drop_fitting_never_creates (p : pyval) : lacks_id p -> never_creates_model (drop_fitting p).
Proof. intros H. unfold drop_fitting. resolve_model. Qed.

Lemma lacks_id_dict (d m : gmap string pyval) :
  d !! "model" = Some (PDict m) ->
  truthy (default PNone (m !! "id")) = false ->
  lacks_id (PDict d).
Proof.
  intros Hd Hm m' Hg. rewrite (py_getitem_dict _ _ _ Hd) in Hg.
  injection Hg as <-. exact Hm.
Qed.

Lemma fit_body_rejects (p : pyval) (m : gmap string pyval) :
  py_getitem p "model" = inr (PDict m) ->
  truthy (default PNone (m !! "id")) = false ->
  fit_body p = Raise (ModelException msg_id).
Proof.
  intros Hg Hm. unfold fit_body. rewrite Hg. cbn [lift bind].
  rewrite (_get_model_rejects m Hm). reflexivity.
Qed.

Lemma fit_invokes_rejecting (d m fp : gmap string pyval) :
  d !! "model" = Some (PDict m) ->
  truthy (default PNone (m !! "id")) = false ->
  m !! "fitting_parameters" = Some (PDict fp) ->
  invokes fit_inner
    (fun p' =>
       fit_body p' = Raise (ModelException msg_id)
       /\ (background_indicator p' = false ->
           fit_inner p' = Raise (ModelException msg_id)))
    (fit (PDict d)).
Proof.
  intros Hd Hm Hfp.
  assert (Hend : forall p' m',
             py_getitem p' "model" = inr (PDict m') ->
             m' !! "id" = m !! "id" ->
             invokes fit_inner
               (fun p' =>
                  fit_body p' = Raise (ModelException msg_id)
                  /\ (background_indicator p' = false ->
                      fit_inner p' = Raise (ModelException msg_id)))
               (fit_inner p')).
  { intros p' m' Hg Hid. constructor.
    assert (Hb : fit_body p' = Raise (ModelException msg_id)).
    { apply fit_body_rejects with (m := m'); [exact Hg | rewrite Hid; exact Hm]. }
    split; [exact Hb |].
    intros Hi. unfold model_controller.fit_inner, decorators.execute_in_background.
    rewrite Hi. exact Hb. }
  assert (Hjob : forall (d1 m1 fp1 : gmap string pyval),
             d1 !! "model" = Some (PDict m1) ->
             m1 !! "fitting_parameters" = Some (PDict fp1) ->
             m1 !! "id" = m !! "id" ->
             invokes fit_inner
               (fun p' =>
                  fit_body p' = Raise (ModelException msg_id)
                  /\ (background_indicator p' = false ->
                      fit_inner p' = Raise (ModelException msg_id)))
               (has_job <- lift (py_contains "job_id" (PDict d1));;
                parameters <-
                  (if has_job
                   then
                     job_id <- lift (py_getitem (PDict d1) "job_id");;
                     lift (py_setitem_path (PDict d1)
                             "model" ["fitting_parameters"; "job_id"] job_id)
                   else Ret (PDict d1));;
                fit_inner parameters)).
  { intros d1 m1 fp1 Hd1 Hm1 Hid.
    destruct (d1 !! "job_id") as [j |] eqn:Hj.
    - rewrite (py_contains_dict_some _ _ _ Hj). cbn [lift bind].
      rewrite (py_getitem_dict _ _ _ Hj). cbn [lift bind py_setitem_path].
      rewrite (py_getitem_dict _ _ _ Hd1), (py_getitem_dict _ _ _ Hm1).
      cbn [py_setitem lift bind].
      eapply Hend.
      + apply py_getitem_dict, lookup_insert_eq.
      + rewrite lookup_insert_ne by discriminate. exact Hid.
    - rewrite (py_contains_dict_none _ _ Hj). cbn [lift bind].
      eapply Hend; [apply py_getitem_dict; exact Hd1 | exact Hid]. }
  unfold model_controller.fit, fit_decorators.
  rewrite (_check_input_parameters_passes _ d (PDict m) Hd
             (truthy_dict_lookup _ _ _ Hfp)).
  unfold _transform_model_parameters_for_fitting.
  rewrite (py_getitem_dict _ _ _ Hd). cbn [lift bind].
  rewrite (py_contains_dict_some _ _ _ Hfp). cbn [lift bind negb].
  rewrite (py_getitem_dict _ _ _ Hfp). cbn [lift bind].
  destruct (fp !! "filter") as [flt |] eqn:Hflt.
  - rewrite (py_contains_dict_some _ _ _ Hflt). cbn [lift bind].
    rewrite (py_getitem_dict _ _ _ Hflt). cbn [lift bind perform].
    apply inv_call; intros cls. apply inv_call; intros fo.
    apply inv_call; intros value.
    cbn [py_setitem_path]. rewrite (py_getitem_dict _ _ _ Hd).
    rewrite (py_getitem_dict _ _ _ Hfp). cbn [py_setitem lift bind].
    eapply Hjob.
    + apply lookup_insert_eq.
    + apply lookup_insert_eq.
    + rewrite lookup_insert_ne by discriminate. reflexivity.
  - rewrite (py_contains_dict_none _ _ Hflt). cbn [lift bind].
    eapply Hjob; [exact Hd | exact Hfp | reflexivity].
Qed.

(** C10, amended.  Model parameters that are a dict without a truthy [id]:
    [_get_model] raises [ModelException] and constructs nothing.  An
    operation raises that exception once its earlier guards have passed:
    [drop_fitting] always; [get_info] when the model parameters are truthy;
    [predict] when moreover [inputs] is present; [initialize] and [drop]
    when moreover [db] is truthy; [fit] when moreover [fitting_parameters]
    is a dict, in the function under its two outer decorators, which raises
    it to the caller when the request does not ask for background execution.
    Whatever the guards decide, none of the six operations constructs a
    model. *)
Theorem model_without_id_is_rejected (d m : gmap string pyval) :
  d !! "model" = Some (PDict m) ->
  truthy (default PNone (m !! "id")) = false ->
  let e := ModelException msg_id in
  _get_model (PDict m) = Raise e
  /\ drop_fitting (PDict d) = Raise e
  /\ (truthy (PDict m) = true -> get_info (PDict d) = Raise e)
  /\ (truthy (PDict m) = true -> is_Some (d !! "inputs") ->
      predict (PDict d) = Raise e)
  /\ (truthy (PDict m) = true -> truthy (default PNone (d !! "db")) = true ->
      initialize (PDict d) = Raise e /\ drop (PDict d) = Raise e)
  /\ (forall fp, m !! "fitting_parameters" = Some (PDict fp) ->
      invokes fit_inner
        (fun p' =>
           fit_body p' = Raise e
           /\ (background_indicator p' = false -> fit_inner p' = Raise e))
        (fit (PDict d)))
  /\ (never_creates_model (fit (PDict d))
      /\ never_creates_model (predict (PDict d))
      /\ never_creates_model (initialize (PDict d))
      /\ never_creates_model (drop (PDict d))
      /\ never_creates_model (get_info (PDict d))
      /\ never_creates_model (drop_fitting (PDict d))).
Proof.
  intros Hd Hm e.
  pose proof (_get_model_rejects m Hm) as Hg.
  pose proof (lacks_id_dict d m Hd Hm) as Hl.
  split; [exact Hg |].
  split.
  { unfold drop_fitting. rewrite (py_getitem_dict _ _ _ Hd). cbn [lift bind].
    rewrite Hg. reflexivity. }
  split.
  { intros Ht. unfold get_info.
    rewrite (_check_input_parameters_passes _ d _ Hd Ht).
    unfold get_info_body. rewrite (py_getitem_dict _ _ _ Hd). cbn [lift bind].
    rewrite Hg. reflexivity. }
  split.
  { intros Ht [x Hx]. unfold predict.
    rewrite (_check_input_parameters_passes _ d _ Hd Ht).
    unfold predict_body. rewrite (py_contains_dict_some _ _ _ Hx).
    cbn [lift bind negb]. rewrite (py_getitem_dict _ _ _ Hd). cbn [lift bind].
    rewrite Hg. reflexivity. }
  split.
  { intros Ht Hdb. split.
    - unfold initialize. rewrite (_check_input_parameters_passes _ d _ Hd Ht).
      unfold initialize_body. rewrite (py_get_dict _ _ _ Hd). cbn [lift bind].
      rewrite Ht. cbn [negb py_get lift bind]. rewrite Hdb. cbn [negb].
      rewrite (py_getitem_dict _ _ _ Hd). cbn [lift bind]. rewrite Hg. reflexivity.
    - unfold drop. rewrite (_check_input_parameters_passes _ d _ Hd Ht).
      unfold drop_body. rewrite (py_get_dict _ _ _ Hd). cbn [lift bind].
      rewrite Ht. cbn [negb py_get lift bind]. rewrite Hdb. cbn [negb].
      rewrite (py_getitem_dict _ _ _ Hd). cbn [lift bind]. rewrite Hg. reflexivity. }
  split.
  { intros fp Hfp. apply fit_invokes_rejecting with (m := m) (fp := fp); assumption. }
  repeat split.
  - apply fit_never_creates, Hl.
  - apply predict_never_creates, Hl.
  - apply initialize_never_creates, Hl.
  - apply drop_never_creates, Hl.
  - apply get_info_never_creates, Hl.
  - apply drop_fitting_never_creates, Hl.
Qed.

End ControllerProperties.

(** C2 at [{}]. *)
Lemma missing_model_witness :
  py_get requests.empty "model" = inr PNone
  /\ truthy PNone = false
  /\ model_controller.fit requests.never requests.empty
     = Raise (ParameterNotFoundException model_controller.msg_model).
Proof.
  split; [reflexivity |]. split; [reflexivity |].
  apply (missing_model_raises_before_handler requests.never ∅ PNone);
    reflexivity.
Defined.

(** C9 at [{'model': {'id': 'm1'}}]. *)
Lemma predict_without_inputs_witness :
  model_controller.predict requests.model_only
  = Raise (ParameterNotFoundException model_controller.msg_inputs).
Proof.
  apply (predict_without_inputs_raises
           (<["model" := PDict (<["id" := PStr "m1"]> ∅)]> ∅)
           (PDict (<["id" := PStr "m1"]> ∅)));
    vm_compute; reflexivity.
Defined.

(** C1, amended, at a request with a dict of fitting parameters. *)
Lemma fit_propagates_job_id_witness :
  invokes (model_controller.fit_inner requests.never)
    (model_controller.job_id_propagated (PStr "j1"))
    (model_controller.fit requests.never requests.fit_request).
Proof.
  apply (fit_propagates_job_id requests.never _
           (<["id" := PStr "m1"]>
              (<["fitting_parameters" := PDict (<["epochs" := PInt 3]> ∅)]> ∅))
           (<["epochs" := PInt 3]> ∅) (PStr "j1"));
    vm_compute; reflexivity.
Defined.

(** C1 as stated fails at [{'job_id': 'j1', 'model': {'fitting_parameters':
    None}}]: the request holds [job_id], its [model] entry contains
    [fitting_parameters], and line 54 raises [TypeError] before the function
    under the decorators is invoked, whichever function it is. *)
Lemma fit_null_fitting_parameters_counterexample :
  let p := requests.fit_request_null in
  py_contains "job_id" p = inr true
  /\ (exists m, py_getitem p "model" = inr m
                /\ py_contains "fitting_parameters" m = inr true)
  /\ (forall func, model_controller.fit_decorators func p = Raise TypeError)
  /\ (forall ind, model_controller.fit ind p = Raise TypeError)
  /\ ~ invokes Ret (fun _ => True) (model_controller.fit_decorators Ret p).
Proof.
  assert (H : forall func,
             model_controller.fit_decorators func requests.fit_request_null
             = Raise TypeError)
    by (intros func; vm_compute; reflexivity).
  cbv zeta. split; [vm_compute; reflexivity |].
  split; [eexists; split; vm_compute; reflexivity |].
  split; [exact H |].
  split; [intros ind; apply H |].
  rewrite H. intros Hinv. inversion Hinv.
Qed.

(** C10, amended, at [{'model': {'name': 'm'}}]. *)
Lemma model_without_id_witness :
  model_controller.drop_fitting requests.model_without_id
  = Raise (ModelException model_controller.msg_id)
  /\ never_creates_model (model_controller.predict requests.model_without_id).
Proof.
  pose proof (model_without_id_is_rejected requests.never
                (<["model" := PDict (<["name" := PStr "m"]> ∅)]> ∅)
                (<["name" := PStr "m"]> ∅) eq_refl eq_refl) as H.
  cbv zeta in H. destruct H as (_ & Hdf & _ & _ & _ & _ & _ & Hp & _).
  split; [exact Hdf | exact Hp].
Defined.

(** C10 as stated fails at [{'model': {'name': 'm'}}]: the model parameters
    have no [id], and [predict] raises [ParameterNotFoundException] for the
    missing [inputs], not [ModelException]. *)
Lemma predict_without_id_counterexample :
  let p := requests.model_without_id in
  (exists m : gmap string pyval,
      py_getitem p "model" = inr (PDict m)
      /\ truthy (default PNone (m !! "id")) = false)
  /\ model_controller.predict p
     = Raise (ParameterNotFoundException model_controller.msg_inputs)
  /\ forall msg, model_controller.predict p <> Raise (ModelException msg).
Proof.
  assert (H : model_controller.predict requests.model_without_id
              = Raise (ParameterNotFoundException model_controller.msg_inputs))
    by (vm_compute; reflexivity).
  cbv zeta. split; [eexists; split; vm_compute; reflexivity |].
  split; [exact H |].
  intros msg. rewrite H. discriminate.
Qed.

(** ** The actions *)

Lemma interp_perform {S X : Type}
  (h : forall X : Type, call X -> S -> result X * S)
  (l : (pyval -> prog pyval) -> pyval -> S -> result string * S)
  (c : call X) (s : S) :
  interp h l (perform c) s = h X c s.
Proof.
  unfold perform. cbn [interp]. destruct (h X c s) as [[e | x] s']; reflexivity.
Qed.

(** C3. The action registered under ['jobs_get_info'] is the call of the job
    controller's [get_jobs_info] at the same parameters and nothing else:
    whatever the controller does, the action returns what that call returns
    and leaves the state that call leaves. *)
Theorem jobs_get_info_delegates :
  exists action,
    job_actions.get_actions !! "jobs_get_info" = Some action
    /\ (forall parameters,
          action parameters = perform (controller_get_jobs_info parameters))
    /\ (forall (S : Type) h l parameters (s : S),
          interp h l (action parameters) s
          = h pyval (controller_get_jobs_info parameters) s).
Proof.
  exists job_actions._get_jobs_info. split; [| split].
  - unfold job_actions.get_actions. apply lookup_insert_eq.
  - intros parameters. reflexivity.
  - intros S h l parameters s. apply interp_perform.
Qed.

(** C8. The action registered under ['get_version'] does the same for any
    two parameters: it is one program, the call of [get_version] without
    arguments, so from one state it returns the same value and leaves the
    same state. *)
Theorem get_version_ignores_parameters :
  exists action,
    actions.get_actions !! "get_version" = Some action
    /\ (forall p1 p2, action p1 = action p2)
    /\ (forall (S : Type) h l p1 p2 (s : S),
          interp h l (action p1) s = interp h l (action p2) s).
Proof.
  exists actions._get_version. split; [| split].
  - unfold actions.get_actions.
    rewrite lookup_insert_ne by discriminate. apply lookup_insert_eq.
  - intros p1 p2. reflexivity.
  - intros S h l p1 p2 s. reflexivity.
Qed.

(** * Properties of the background-job subsystem *)

Import jobs.

(** ** The job registry *)

Lemma find_job_None (i : string) (reg : list job_record) :
  find_job i reg = None <-> i ∉ ids reg.
Proof.
  unfold find_job, ids. induction reg as [| r reg IH]; cbn.
  - split; [intros _; apply not_elem_of_nil | reflexivity].
  - rewrite not_elem_of_cons. destruct (String.eqb_spec (job_id r) i) as [-> | Hne].
    + split; [discriminate | intros [[] _]; reflexivity].
    + rewrite IH. split; [intros H; split; [congruence | exact H] | intros [_ H]; exact H].
Qed.

Lemma find_job_Some (i : string) (reg : list job_record) (r : job_record) :
  find_job i reg = Some r -> r ∈ reg /\ job_id r = i.
Proof.
  unfold find_job. induction reg as [| r0 reg IH]; cbn; [discriminate |].
  destruct (String.eqb_spec (job_id r0) i) as [Heq | Hne].
  - intros [= <-]. split; [apply list_elem_of_here | exact Heq].
  - intros H. destruct (IH H) as [Hin Hid]. split; [apply list_elem_of_further, Hin | exact Hid].
Qed.

Lemma find_job_app_l (i : string) (reg reg' : list job_record) (r : job_record) :
  find_job i reg = Some r -> find_job i (reg ++ reg') = Some r.
Proof.
  unfold find_job. induction reg as [| r0 reg IH]; cbn; [discriminate |].
  destruct (String.eqb (job_id r0) i); [trivial | exact IH].
Qed.

Lemma find_job_app_r (i : string) (reg reg' : list job_record) :
  find_job i reg = None -> find_job i (reg ++ reg') = find_job i reg'.
Proof.
  unfold find_job. induction reg as [| r0 reg IH]; cbn; [reflexivity |].
  destruct (String.eqb (job_id r0) i); [discriminate | exact IH].
Qed.

Lemma find_job_here (i : string) (r : job_record) :
  job_id r = i -> find_job i [r] = Some r.
Proof. intros <-. unfold find_job. cbn. rewrite String.eqb_refl. reflexivity. Qed.

Lemma find_job_filter_ne (i j : string) (reg : list job_record) :
  i <> j ->
  find_job i (filter (fun r => job_id r <> j) reg) = find_job i reg.
Proof.
  intros Hij. unfold find_job. induction reg as [| r reg IH]; [reflexivity |].
  rewrite filter_cons. destruct (decide (job_id r <> j)) as [Hr | Hr]; cbn.
  - rewrite IH. reflexivity.
  - apply dec_stable in Hr. destruct (String.eqb_spec (job_id r) i) as [He | _];
      [congruence | exact IH].
Qed.

Lemma find_job_filter_eq (i : string) (reg : list job_record) :
  find_job i (filter (fun r => job_id r <> i) reg) = None.
Proof.
  apply find_job_None. unfold ids. intros Hin.
  apply list_elem_of_fmap in Hin as (r & -> & Hr).
  apply list_elem_of_filter in Hr as [Hne _]. apply Hne. reflexivity.
Qed.

Lemma ids_filter_subseteq (j : string) (reg : list job_record) (i : string) :
  i ∈ ids (filter (fun r => job_id r <> j) reg) -> i ∈ ids reg /\ i <> j.
Proof.
  unfold ids. intros Hin. apply list_elem_of_fmap in Hin as (r & -> & Hr).
  apply list_elem_of_filter in Hr as [Hne Hr]. split; [| exact Hne].
  apply list_elem_of_fmap. exists r. split; [reflexivity | exact Hr].
Qed.

Lemma NoDup_ids_filter (j : string) (reg : list job_record) :
  NoDup (ids reg) -> NoDup (ids (filter (fun r => job_id r <> j) reg)).
Proof.
  unfold ids. induction reg as [| r reg IH]; [intros _; constructor |].
  rewrite fmap_cons, NoDup_cons. intros [Hr Hnd]. rewrite filter_cons.
  destruct (decide (job_id r <> j)); [| exact (IH Hnd)].
  rewrite fmap_cons, NoDup_cons. split; [| exact (IH Hnd)].
  intros Hin. apply Hr. apply (ids_filter_subseteq j reg). exact Hin.
Qed.

Lemma ids_update (i : string) (st : job_status) (u : update) (reg : list job_record) :
  ids ((fun r' => if String.eqb (job_id r') i then apply_update st u r' else r') <$> reg)
  = ids reg.
Proof.
  unfold ids. rewrite <- list_fmap_compose. apply list_fmap_ext.
  intros k r _. cbn. destruct (String.eqb (job_id r) i); reflexivity.
Qed.

Lemma ids_try_update (i : string) (st : job_status) (u : update) (reg : list job_record) :
  ids (try_update i st u reg) = ids reg.
Proof.
  unfold try_update, registry_update_status.
  destruct (find_job i reg) as [r |]; [| reflexivity].
  destruct (rank (status r) <? rank st); [apply ids_update | reflexivity].
Qed.

Lemma find_job_update (i : string) (st : job_status) (u : update)
  (reg : list job_record) (r : job_record) :
  find_job i reg = Some r ->
  find_job i ((fun r' => if String.eqb (job_id r') i then apply_update st u r' else r') <$> reg)
  = Some (apply_update st u r).
Proof.
  unfold find_job. induction reg as [| r0 reg IH]; cbn; [discriminate |].
  destruct (String.eqb (job_id r0) i) eqn:He; cbn.
  - intros [= <-]. rewrite He. reflexivity.
  - rewrite He. exact IH.
Qed.

Lemma try_update_forward (i : string) (st : job_status) (u : update)
  (reg : list job_record) (r : job_record) :
  find_job i reg = Some r ->
  rank (status r) < rank st ->
  find_job i (try_update i st u reg) = Some (apply_update st u r).
Proof.
  intros Hf Hr. unfold try_update, registry_update_status. rewrite Hf.
  destruct (Nat.ltb_spec (rank (status r)) (rank st)) as [_ | Hge]; [| lia].
  apply find_job_update. exact Hf.
Qed.

(** ** Tasks *)

Lemma find_task_None (i : string) (ts : list task) :
  find_task i ts = None <-> i ∉ task_id <$> ts.
Proof.
  unfold find_task. induction ts as [| t ts IH]; cbn.
  - split; [intros _; apply not_elem_of_nil | reflexivity].
  - rewrite not_elem_of_cons. destruct (String.eqb_spec (task_id t) i) as [-> | Hne].
    + split; [discriminate | intros [[] _]; reflexivity].
    + rewrite IH. split; [intros H; split; [congruence | exact H] | intros [_ H]; exact H].
Qed.

Lemma find_task_app_new (i : string) (ts : list task) (t : task) :
  i ∉ task_id <$> ts -> task_id t = i -> find_task i (ts ++ [t]) = Some t.
Proof.
  intros Hn Ht. apply find_task_None in Hn. unfold find_task in *.
  induction ts as [| t0 ts IH]; cbn in *.
  - rewrite Ht, String.eqb_refl. reflexivity.
  - destruct (String.eqb (task_id t0) i); [discriminate | exact (IH Hn)].
Qed.

Lemma remove_task_absent (i : string) (ts : list task) :
  i ∉ task_id <$> ts -> remove_task i ts = ts.
Proof.
  unfold remove_task. induction ts as [| t ts IH]; [reflexivity |].
  rewrite fmap_cons, not_elem_of_cons. intros [Hne Hn].
  rewrite filter_cons_True by congruence. rewrite (IH Hn). reflexivity.
Qed.

Lemma remove_task_app_new (i : string) (ts : list task) (t : task) :
  i ∉ task_id <$> ts -> task_id t = i -> remove_task i (ts ++ [t]) = ts.
Proof.
  intros Hn Ht. unfold remove_task. rewrite filter_app.
  fold (remove_task i ts). rewrite (remove_task_absent i ts Hn).
  rewrite filter_cons_False, filter_nil by (intros H; apply H; exact Ht).
  apply app_nil_r.
Qed.

Lemma task_ids_remove (j : string) (ts : list task) (i : string) :
  i ∈ task_id <$> remove_task j ts -> i ∈ task_id <$> ts /\ i <> j.
Proof.
  unfold remove_task. intros Hin. apply list_elem_of_fmap in Hin as (t & -> & Ht).
  apply list_elem_of_filter in Ht as [Hne Ht]. split; [| exact Hne].
  apply list_elem_of_fmap. exists t. split; [reflexivity | exact Ht].
Qed.

Lemma NoDup_task_ids_remove (j : string) (ts : list task) :
  NoDup (task_id <$> ts) -> NoDup (task_id <$> remove_task j ts).
Proof.
  induction ts as [| t ts IH]; [intros _; constructor |].
  rewrite fmap_cons, NoDup_cons. intros [Ht Hnd]. unfold remove_task.
  rewrite filter_cons. fold (remove_task j ts).
  destruct (decide (task_id t <> j)); [| exact (IH Hnd)].
  rewrite fmap_cons, NoDup_cons. split; [| exact (IH Hnd)].
  intros Hin. apply Ht. apply (task_ids_remove j ts). exact Hin.
Qed.

(** ** The invariant of the subsystem *)

Section WF.
Variable next_id : list string -> string.
Hypothesis next_id_fresh : forall l, next_id l ∉ l.

Lemma find_task_Some (i : string) (ts : list task) (t : task) :
  find_task i ts = Some t -> t ∈ ts /\ task_id t = i.
Proof.
  unfold find_task. induction ts as [| t0 ts IH]; cbn; [discriminate |].
  destruct (String.eqb_spec (task_id t0) i) as [Heq | Hne].
  - intros [= <-]. split; [apply list_elem_of_here | exact Heq].
  - intros H. destruct (IH H) as [Hin Hid]. split; [apply list_elem_of_further, Hin | exact Hid].
Qed.

Lemma alloc_id_wf callable parameters (s : jstate) :
  wf s -> wf (snd (alloc_id next_id callable parameters s)).
Proof.
  intros (Hiss & Huse & Hsub & Hq). unfold wf, in_use in *. cbn.
  pose proof (next_id_fresh (issued s)) as Hf.
  assert (Hnu : next_id (issued s) ∉ (task_id <$> launching s) ++ ids (registry s))
    by (intros Hin; apply Hf, Hsub, Hin).
  rewrite fmap_app. cbn.
  repeat split.
  - apply NoDup_cons. split; assumption.
  - rewrite <- app_assoc. cbn.
    apply NoDup_app in Huse as (Hl & Hd & Hr).
    rewrite not_elem_of_app in Hnu. destruct Hnu as [Hnl Hnr].
    apply NoDup_app. repeat split; [exact Hl | | apply NoDup_cons; split; assumption].
    intros x Hx. rewrite not_elem_of_cons. split; [| apply Hd, Hx].
    intros ->. apply Hnl, Hx.
  - intros i. rewrite <- app_assoc. cbn. rewrite elem_of_app, !elem_of_cons.
    intros [Hi | [Hi | Hi]]; [right | left; exact Hi | right];
      apply Hsub; rewrite elem_of_app; [left | right]; exact Hi.
  - intros i Hi. apply list_elem_of_further, Hq, Hi.
Qed.

Lemma insert_launched_wf (i : string) (s : jstate) :
  wf s -> wf (snd (insert_launched i s)).
Proof.
  intros Hwf. unfold insert_launched.
  destruct (find_task i (launching s)) as [t |] eqn:Ht; [| exact Hwf].
  destruct (find_task_Some _ _ _ Ht) as [Htin Htid].
  destruct Hwf as (Hiss & Huse & Hsub & Hq). unfold in_use in *.
  apply NoDup_app in Huse as (Hl & Hd & Hr).
  assert (Hil : i ∈ task_id <$> launching s)
    by (apply list_elem_of_fmap; exists t; split; [symmetry; exact Htid | exact Htin]).
  unfold registry_insert. cbn [job_id new_record].
  destruct (find_job i (registry s)) as [r |] eqn:Hr'; cbn.
  - unfold wf, in_use. cbn. repeat split; [exact Hiss | | | exact Hq].
    + apply NoDup_app. repeat split; [apply NoDup_task_ids_remove, Hl | | exact Hr].
      intros x Hx. apply Hd. apply (task_ids_remove i). exact Hx.
    + intros x. rewrite elem_of_app. intros [Hx | Hx]; apply Hsub; rewrite elem_of_app.
      * left. apply (task_ids_remove i). exact Hx.
      * right. exact Hx.
  - apply find_job_None in Hr'.
    unfold wf, in_use. cbn. repeat split; [exact Hiss | | |].
    + unfold ids. rewrite fmap_app. cbn.
      apply NoDup_app. repeat split; [apply NoDup_task_ids_remove, Hl | |].
      * intros x Hx. apply task_ids_remove in Hx as [Hx Hne].
        rewrite not_elem_of_app, not_elem_of_cons. repeat split;
          [apply Hd, Hx | exact Hne | apply not_elem_of_nil].
      * apply NoDup_app. repeat split; [exact Hr | | apply NoDup_singleton].
        intros x Hx. rewrite not_elem_of_cons. split; [| apply not_elem_of_nil].
        intros ->. apply Hr', Hx.
    + intros x. unfold ids. rewrite fmap_app. cbn.
      rewrite !elem_of_app, elem_of_cons.
      intros [Hx | [Hx | [-> | Hx]]].
      * apply Hsub. rewrite elem_of_app. left. apply (task_ids_remove i). exact Hx.
      * apply Hsub. rewrite elem_of_app. right. exact Hx.
      * apply Hsub. rewrite elem_of_app. left. exact Hil.
      * apply elem_of_nil in Hx. destruct Hx.
    + intros x. rewrite <- app_assoc, !fmap_app. cbn.
      rewrite !elem_of_app, elem_of_cons.
      intros [Hx | [-> | Hx]].
      * apply Hq. rewrite fmap_app, elem_of_app. left. exact Hx.
      * rewrite Htid. apply Hsub. rewrite elem_of_app. left. exact Hil.
      * apply Hq. rewrite fmap_app, elem_of_app. right. exact Hx.
Qed.

Lemma worker_start_wf (wid : nat) (i : string) (s : jstate) :
  wf s -> wf (worker_start wid i s).
Proof.
  intros Hwf. unfold worker_start.
  destruct (find_task i (queue s)) as [t |] eqn:Ht; [| exact Hwf].
  destruct (find_task_Some _ _ _ Ht) as [Htin Htid].
  destruct Hwf as (Hiss & Huse & Hsub & Hq).
  unfold wf, in_use in *. cbn. rewrite ids_try_update.
  repeat split; [exact Hiss | exact Huse | exact Hsub |].
  intros x. rewrite !fmap_app. cbn. rewrite !elem_of_app, elem_of_cons.
  intros [Hx | [Hx | [-> | Hx]]]; apply Hq; rewrite fmap_app, elem_of_app.
  - left. apply (task_ids_remove i). exact Hx.
  - right. exact Hx.
  - left. apply list_elem_of_fmap. exists t. split; [reflexivity | exact Htin].
  - apply elem_of_nil in Hx. destruct Hx.
Qed.

Lemma worker_finish_wf (i : string) (outcome : result pyval) (s : jstate) :
  wf s -> wf (worker_finish i outcome s).
Proof.
  intros Hwf. unfold worker_finish.
  destruct (find_task i (active s)) as [t |] eqn:Ht; [| exact Hwf].
  destruct Hwf as (Hiss & Huse & Hsub & Hq).
  unfold wf, in_use in *.
  destruct outcome as [e | v]; cbn; rewrite ids_try_update.
  all: repeat split; [exact Hiss | exact Huse | exact Hsub |].
  all: intros x; rewrite !fmap_app, !elem_of_app.
  all: intros [Hx | Hx]; apply Hq; rewrite fmap_app, elem_of_app;
    [left; exact Hx | right; apply (task_ids_remove i); exact Hx].
Qed.

Lemma delete_background_job_wf (parameters : pyval) (s : jstate) :
  wf s -> wf (snd (delete_background_job parameters s)).
Proof.
  intros Hwf. unfold delete_background_job.
  destruct (referenced_id parameters); try exact Hwf.
  unfold registry_delete. destruct (find_job s0 (registry s)); [| exact Hwf].
  destruct Hwf as (Hiss & Huse & Hsub & Hq).
  unfold wf, in_use in *. cbn.
  apply NoDup_app in Huse as (Hl & Hd & Hr).
  repeat split; [exact Hiss | | | exact Hq].
  - apply NoDup_app. repeat split; [exact Hl | | apply NoDup_ids_filter, Hr].
    intros x Hx Hin. apply (Hd x Hx). apply (ids_filter_subseteq s0). exact Hin.
  - intros x. rewrite elem_of_app. intros [Hx | Hx]; apply Hsub; rewrite elem_of_app.
    + left. exact Hx.
    + right. apply (ids_filter_subseteq s0). exact Hx.
Qed.

Lemma step_wf (s s' : jstate) : step next_id s s' -> wf s -> wf s'.
Proof.
  intros [callable parameters s0 | i s0 | wid i s0 | i outcome s0 | parameters s0].
  - apply alloc_id_wf.
  - apply insert_launched_wf.
  - apply worker_start_wf.
  - apply worker_finish_wf.
  - apply delete_background_job_wf.
Qed.

Lemma init_wf : wf init.
Proof.
  unfold wf, in_use, init. cbn. repeat split; try constructor;
    intros i Hi; apply elem_of_nil in Hi; destruct Hi.
Qed.

Lemma reachable_wf (s : jstate) : reachable next_id s -> wf s.
Proof.
  unfold reachable. revert s.
  apply rtc_ind_r; [apply init_wf |].
  intros y z _ Hst IH. exact (step_wf y z Hst IH).
Qed.

End WF.

(** ** Programs against the subsystem *)

Section Exec.
Variable background_indicator : pyval -> bool.
Variable next_id : list string -> string.
Hypothesis next_id_fresh : forall l, next_id l ∉ l.
Variable E : Type.
Variable oracle : forall X : Type, call X -> E -> result X * E.

Local Abbreviation exec := (@jobs.exec next_id E oracle).
Local Abbreviation launch := (jobs.launch next_id).
Local Abbreviation launched := (jobs.launched next_id).
Local Abbreviation run_worker := (@jobs.run_worker next_id E oracle).
Local Abbreviation execute_in_background :=
  (decorators.execute_in_background background_indicator).

Lemma launch_wf callable parameters (s : jstate) :
  wf s ->
  let i := next_id (issued s) in
  ((i ∉ ids (registry s))
   /\ launch callable parameters s
      = (inr i,
         mk_jstate (registry s ++ [new_record i parameters]) (i :: issued s)
           (launching s) (queue s ++ [mk_task i callable parameters])
           (active s) (clock s))).
Proof.
  intros (Hiss & Huse & Hsub & Hq) i.
  pose proof (next_id_fresh (issued s)) as Hf. fold i in Hf.
  assert (Hnu : i ∉ in_use s) by (intros Hin; apply Hf, Hsub, Hin).
  unfold in_use in Hnu. rewrite not_elem_of_app in Hnu. destruct Hnu as [Hnl Hnr].
  split; [exact Hnr |].
  unfold jobs.launch, alloc_id, insert_launched. fold i.
  cbn [launching registry issued queue active clock].
  rewrite (find_task_app_new i (launching s) (mk_task i callable parameters) Hnl eq_refl).
  cbn [task_parameters]. unfold registry_insert. cbn [job_id new_record].
  apply find_job_None in Hnr. rewrite Hnr.
  rewrite (remove_task_app_new i (launching s) (mk_task i callable parameters) Hnl eq_refl).
  reflexivity.
Qed.

Lemma launch_steps callable parameters (s : jstate) :
  rtc (step next_id) s (snd (launch callable parameters s)).
Proof.
  unfold jobs.launch.
  destruct (alloc_id next_id callable parameters s) as [i s1] eqn:Ha.
  eapply rtc_l; [apply (step_alloc next_id callable parameters) |].
  rewrite Ha. cbn. apply rtc_once. apply step_insert.
Qed.

Lemma answer_jobs {X : Type} (c : call X) (w : world E) :
  jobs_of (snd (answer oracle c w)) = jobs_of w
  \/ exists q, jobs_of (snd (answer oracle c w))
              = snd (delete_background_job q (jobs_of w)).
Proof.
  destruct c; cbn [answer];
    lazymatch goal with
    | |- context [delete_background_job ?q (jobs_of w)] =>
        right; exists q; destruct (delete_background_job q (jobs_of w)); reflexivity
    | |- context [oracle ?Y ?c' (ext w)] =>
        left; destruct (oracle Y c' (ext w)); reflexivity
    | |- _ => left; reflexivity
    end.
Qed.

Lemma exec_steps {R : Type} (p : prog R) (w : world E) :
  rtc (step next_id) (jobs_of w) (jobs_of (snd (exec p w))).
Proof.
  unfold jobs.exec. revert w.
  induction p as [R r | R e | R X c k IH | R callable IHc parameters k IH];
    intros w; cbn [interp].
  - apply rtc_refl.
  - apply rtc_refl.
  - assert (Hw : rtc (step next_id) (jobs_of w) (jobs_of (snd (answer oracle c w)))).
    { destruct (answer_jobs c w) as [-> | [q ->]];
        [apply rtc_refl | apply rtc_once, step_delete]. }
    destruct (answer oracle c w) as [[e | x] w']; cbn [snd] in *; [exact Hw |].
    eapply rtc_trans; [exact Hw | apply IH].
  - unfold launch_in.
    pose proof (launch_steps callable parameters (jobs_of w)) as Hl.
    destruct (launch callable parameters (jobs_of w)) as [a s] eqn:Hla.
    cbn in Hl. destruct a as [e | i]; [exact Hl |].
    eapply rtc_trans; [exact Hl |].
    apply (IH i (mk_world s (ext w))).
Qed.

Lemma rtc_step_wf (s s' : jstate) : rtc (step next_id) s s' -> wf s -> wf s'.
Proof.
  intros H. induction H as [| s0 s1 s2 Hst _ IH]; [trivial |].
  intros Hwf. apply IH. apply (step_wf next_id next_id_fresh s0 s1 Hst Hwf).
Qed.

Lemma exec_wf {R : Type} (p : prog R) (w : world E) :
  wf (jobs_of w) -> wf (jobs_of (snd (exec p w))).
Proof. apply rtc_step_wf. apply exec_steps. Qed.

Lemma answer_job_free {X : Type} (c : call X) (w : world E) :
  is_job_call c = false -> jobs_of (snd (answer oracle c w)) = jobs_of w.
Proof.
  intros Hc. destruct c; try discriminate Hc; cbn [answer];
    destruct (oracle _ _ (ext w)); reflexivity.
Qed.

Lemma exec_job_free {R : Type} (p : prog R) (w : world E) :
  job_free p -> jobs_of (snd (exec p w)) = jobs_of w.
Proof.
  unfold jobs.exec. intros H. revert w.
  induction H as [r | e | X c k Hc _ IH]; intros w; cbn [interp]; try reflexivity.
  pose proof (answer_job_free c w Hc) as Hw.
  destruct (answer oracle c w) as [[e | x] w']; cbn [snd] in *; [exact Hw |].
  rewrite IH. exact Hw.
Qed.

Ltac job_free_step :=
  cbn [bind lift negb]; unfold perform;
  match goal with
  | |- job_free (Raise _) => constructor
  | |- job_free (Ret _) => constructor
  | |- job_free (Call _ _) => apply jf_call; [reflexivity | intros ?]
  | |- context [lift ?r] => destruct r as [? | ?]
  | |- context [if ?b then _ else _] => destruct b
  end.

Lemma fit_body_job_free (p : pyval) : job_free (model_controller.fit_body p).
Proof.
  unfold model_controller.fit_body, model_controller._get_model.
  repeat job_free_step.
Qed.

(** C5.  The execution wrapper, on a state of the subsystem that satisfies
    its invariant.  Indicator absent: the wrapped program is the handler's
    own and so is its run; a handler that leaves the job subsystem alone, as
    the body of [fit] does, leaves the registry as it was.  Indicator
    present: the run returns the new identifier, which was never generated
    before and names no record; the registry has gained the pending record,
    the task is handed off, and the collaborators' state is untouched: the
    handler has not run. *)
Theorem execute_in_background_contract
  (func : pyval -> prog pyval) (p : pyval) (w : world E) :
  wf (jobs_of w) ->
  (background_indicator p = false ->
   execute_in_background func p = func p
   /\ exec (execute_in_background func p) w = exec (func p) w
   /\ (job_free (func p) ->
       jobs_of (snd (exec (execute_in_background func p) w)) = jobs_of w)
   /\ jobs_of (snd (exec (model_controller.fit_inner background_indicator p) w))
      = jobs_of w)
  /\ (background_indicator p = true ->
      let i := next_id (issued (jobs_of w)) in
      (i ∉ issued (jobs_of w))
      /\ (i ∉ ids (registry (jobs_of w)))
      /\ exec (execute_in_background func p) w
         = (inr (PStr i), mk_world (launched func p (jobs_of w)) (ext w))).
Proof.
  intros Hwf. split.
  - intros Hi. unfold model_controller.fit_inner, decorators.execute_in_background.
    rewrite Hi. repeat split.
    + apply exec_job_free.
    + apply exec_job_free, fit_body_job_free.
  - intros Hi i. unfold decorators.execute_in_background. rewrite Hi.
    destruct (launch_wf func p (jobs_of w) Hwf) as [Hn Hl].
    repeat split; [apply next_id_fresh | exact Hn |].
    unfold jobs.exec. cbn [interp]. unfold launch_in. rewrite Hl. reflexivity.
Qed.

Lemma matches_id (i : string) (r : job_record) :
  matches (PDict (<["id" := PStr i]> ∅)) r = String.eqb i (job_id r).
Proof.
  unfold matches. rewrite lookup_insert_eq.
  rewrite !lookup_insert_ne by discriminate. rewrite !lookup_empty.
  cbn. rewrite !andb_true_r. reflexivity.
Qed.

Lemma query_absent (i : string) (reg : list job_record) :
  i ∉ ids reg -> registry_query (PDict (<["id" := PStr i]> ∅)) reg = [].
Proof.
  unfold registry_query, ids. induction reg as [| r0 reg IH]; [reflexivity |].
  rewrite fmap_cons, not_elem_of_cons. intros [Hne Hn].
  rewrite filter_cons, matches_id.
  destruct (String.eqb_spec i (job_id r0)) as [He | _]; [contradiction |].
  destruct (decide (false = true)) as [Hc | _]; [discriminate Hc | exact (IH Hn)].
Qed.

Lemma query_by_id (i : string) (reg : list job_record) (r : job_record) :
  NoDup (ids reg) ->
  find_job i reg = Some r ->
  registry_query (PDict (<["id" := PStr i]> ∅)) reg = [r].
Proof.
  unfold find_job, ids.
  induction reg as [| r0 reg IH]; cbn [find]; [discriminate |].
  rewrite fmap_cons, NoDup_cons. intros [Hr0 Hnd].
  unfold registry_query. rewrite filter_cons, matches_id.
  fold (registry_query (PDict (<["id" := PStr i]> ∅)) reg).
  destruct (String.eqb_spec (job_id r0) i) as [He | Hne].
  - intros [= <-]. rewrite <- He, String.eqb_refl.
    destruct (decide (true = true)) as [_ | Hc]; [| destruct Hc; reflexivity].
    rewrite query_absent by exact Hr0. reflexivity.
  - destruct (String.eqb_spec i (job_id r0)) as [He | _]; [congruence |].
    destruct (decide (false = true)) as [Hc | _]; [discriminate Hc |].
    exact (IH Hnd).
Qed.

(** *** Identifiers *)

Lemma step_issued (s s' : jstate) :
  step next_id s s' -> forall i, i ∈ issued s -> i ∈ issued s'.
Proof.
  intros [callable parameters s0 | i0 s0 | wid i0 s0 | i0 outcome s0 | parameters s0]
    i Hi.
  - cbn. apply list_elem_of_further, Hi.
  - unfold insert_launched. destruct (find_task i0 (launching s0)); [| exact Hi].
    destruct (registry_insert _ (registry s0)); exact Hi.
  - unfold worker_start. destruct (find_task i0 (queue s0)); exact Hi.
  - unfold worker_finish. destruct (find_task i0 (active s0)); exact Hi.
  - unfold delete_background_job. destruct (referenced_id parameters); try exact Hi.
    unfold registry_delete. destruct (find_job _ (registry s0)); exact Hi.
Qed.

Lemma count_new_record (i : string) (reg : list job_record) (r : job_record) :
  i ∉ ids reg ->
  job_id r = i ->
  filter (fun r' => job_id r' = i) (reg ++ [r]) = [r].
Proof.
  intros Hn Hr. rewrite filter_app.
  rewrite filter_cons_True, filter_nil by exact Hr.
  replace (filter (fun r' => job_id r' = i) reg) with (@nil job_record);
    [reflexivity |].
  symmetry. induction reg as [| r0 reg IH]; [reflexivity |].
  unfold ids in Hn. rewrite fmap_cons, not_elem_of_cons in Hn.
  destruct Hn as [Hne Hn].
  rewrite filter_cons_False by congruence. exact (IH Hn).
Qed.

Lemma insert_launched_wf_inv (i : string) (s : jstate) :
  wf s ->
  (forall j, fst (insert_launched i s) <> inl (DuplicateIdError j))
  /\ (forall j s',
        insert_launched i s = (inr j, s') ->
        j = i /\ filter (fun r => job_id r = i) (registry s') = [new_record i
              (default PNone (task_parameters <$> find_task i (launching s)))]).
Proof.
  intros (Hiss & Huse & Hsub & Hq). unfold insert_launched.
  destruct (find_task i (launching s)) as [t |] eqn:Ht.
  - destruct (find_task_Some _ _ _ Ht) as [Htin Htid].
    assert (Hil : i ∈ task_id <$> launching s)
      by (apply list_elem_of_fmap; exists t; split; [symmetry; exact Htid | exact Htin]).
    unfold in_use in Huse. apply NoDup_app in Huse as (_ & Hd & _).
    pose proof (Hd i Hil) as Hnr.
    unfold registry_insert. cbn [job_id new_record].
    pose proof Hnr as Hfj. apply find_job_None in Hfj. rewrite Hfj.
    split; [intros j; cbn; discriminate |].
    intros j s' [= <- <-]. split; [reflexivity |]. cbn [registry fmap option_fmap option_map default].
    apply count_new_record; [exact Hnr | reflexivity].
  - split; [intros j; cbn; discriminate |]. intros j s' H. discriminate H.
Qed.

End Exec.

(** ** Schedules *)

Lemma find_job_fmap_ne (i j : string) (f : job_record -> job_record)
  (reg : list job_record) :
  i <> j ->
  (forall r, job_id (f r) = job_id r) ->
  (forall r, job_id r <> i -> f r = r) ->
  find_job j (f <$> reg) = find_job j reg.
Proof.
  intros Hne Hid Hf. unfold find_job.
  induction reg as [| r0 reg IH]; [reflexivity |].
  rewrite fmap_cons. cbn [find]. rewrite Hid.
  destruct (String.eqb_spec (job_id r0) j) as [He | Hn].
  - rewrite Hf by congruence. reflexivity.
  - exact IH.
Qed.

Lemma find_job_try_update_ne (i j : string) (st : job_status) (u : update)
  (reg : list job_record) :
  i <> j -> find_job j (try_update i st u reg) = find_job j reg.
Proof.
  intros Hne. unfold try_update, registry_update_status.
  destruct (find_job i reg) as [r |]; [| reflexivity].
  destruct (rank (status r) <? rank st); [| reflexivity].
  apply (find_job_fmap_ne i j); [exact Hne | |].
  - intros r0. destruct (String.eqb (job_id r0) i); reflexivity.
  - intros r0 Hr0. destruct (String.eqb_spec (job_id r0) i); [contradiction | reflexivity].
Qed.

Lemma try_update_absent (i : string) (st : job_status) (u : update)
  (reg : list job_record) :
  find_job i reg = None -> try_update i st u reg = reg.
Proof.
  intros H. unfold try_update, registry_update_status. rewrite H. reflexivity.
Qed.

(** The identifiers that the counter has generated. *)

Lemma counted_nil : counted [].
Proof. intros i Hi. apply elem_of_nil in Hi. destruct Hi. Qed.

Lemma counted_fresh (l : list string) : counted l -> counter_id l ∉ l.
Proof.
  intros Hl Hin. destruct (Hl _ Hin) as (n & Hn & He).
  unfold counter_id in He. apply (inj pretty) in He. lia.
Qed.

Lemma counted_next (l : list string) : counted l -> counted (counter_id l :: l).
Proof.
  intros Hl i Hi. cbn [length]. apply elem_of_cons in Hi as [-> | Hi].
  - exists (length l). split; [lia | reflexivity].
  - destruct (Hl i Hi) as (n & Hn & He). exists n. split; [lia | exact He].
Qed.

Lemma find_job_singleton (j : string) (r r' : job_record) :
  find_job j [r] = Some r' -> r' = r /\ job_id r = j.
Proof.
  unfold find_job. cbn [find].
  destruct (String.eqb_spec (job_id r) j) as [He | Hn]; [| discriminate].
  intros [= <-]. split; [reflexivity | exact He].
Qed.

Lemma find_job_filter_Some (i j : string) (reg : list job_record) (r : job_record) :
  find_job j (filter (fun r' => job_id r' <> i) reg) = Some r ->
  find_job j reg = Some r.
Proof.
  destruct (decide (j = i)) as [-> | Hne].
  - rewrite find_job_filter_eq. discriminate.
  - rewrite (find_job_filter_ne j i reg Hne). trivial.
Qed.

Lemma task_id_elem (t : task) (ts : list task) : t ∈ ts -> task_id t ∈ task_id <$> ts.
Proof. intros H. apply list_elem_of_fmap. exists t. split; [reflexivity | exact H]. Qed.

(** What a deletion leaves of the state. *)
Lemma delete_background_job_state (parameters : pyval) (s : jstate) :
  snd (delete_background_job parameters s) = s
  \/ exists i,
       snd (delete_background_job parameters s)
       = set_registry (filter (fun r => job_id r <> i) (registry s)) s.
Proof.
  unfold delete_background_job.
  destruct (referenced_id parameters) as [| | | | i | |]; try (left; reflexivity).
  unfold registry_delete. destruct (find_job i (registry s)); [right; exists i |left]; reflexivity.
Qed.

Section Schedules.
Variable next_id : list string -> string.

Lemma alloc_id_wf_at callable parameters (s : jstate) :
  next_id (issued s) ∉ issued s ->
  wf s -> wf (snd (alloc_id next_id callable parameters s)).
Proof.
  intros Hf (Hiss & Huse & Hsub & Hq). unfold wf, in_use in *. cbn.
  assert (Hnu : next_id (issued s) ∉ (task_id <$> launching s) ++ ids (registry s))
    by (intros Hin; apply Hf, Hsub, Hin).
  rewrite fmap_app. cbn.
  repeat split.
  - apply NoDup_cons. split; assumption.
  - rewrite <- app_assoc. cbn.
    apply NoDup_app in Huse as (Hl & Hd & Hr).
    rewrite not_elem_of_app in Hnu. destruct Hnu as [Hnl Hnr].
    apply NoDup_app. repeat split; [exact Hl | | apply NoDup_cons; split; assumption].
    intros x Hx. rewrite not_elem_of_cons. split; [| apply Hd, Hx].
    intros ->. apply Hnl, Hx.
  - intros i. rewrite <- app_assoc. cbn. rewrite elem_of_app, !elem_of_cons.
    intros [Hi | [Hi | Hi]]; [right | left; exact Hi | right];
      apply Hsub; rewrite elem_of_app; [left | right]; exact Hi.
  - intros i Hi. apply list_elem_of_further, Hq, Hi.
Qed.

Lemma alloc_id_consistent callable parameters (s : jstate) :
  next_id (issued s) ∉ issued s ->
  consistent s -> consistent (snd (alloc_id next_id callable parameters s)).
Proof.
  intros Hf (Hwf & Hl & Hq & Ha).
  split; [apply alloc_id_wf_at; assumption |].
  cbn [alloc_id snd launching queue active registry].
  split; [| split; assumption].
  intros i. rewrite fmap_app, elem_of_app. intros [Hi | Hi]; [apply Hl, Hi |].
  apply list_elem_of_singleton in Hi. cbn in Hi. subst i.
  intros Hin. apply Hf. destruct Hwf as (_ & _ & _ & Hsub). apply Hsub, Hin.
Qed.

Lemma insert_launched_fresh (i : string) (s : jstate) (t : task) :
  wf s ->
  find_task i (launching s) = Some t ->
  (i ∉ ids (registry s))
  /\ insert_launched i s
     = (inr i,
        mk_jstate (registry s ++ [new_record i (task_parameters t)]) (issued s)
          (remove_task i (launching s)) (queue s ++ [t]) (active s) (clock s)).
Proof.
  intros (_ & Huse & _ & _) Ht.
  destruct (find_task_Some _ _ _ Ht) as [Htin Htid].
  assert (Hn : i ∉ ids (registry s)).
  { unfold in_use in Huse. apply NoDup_app in Huse as (_ & Hd & _).
    apply Hd. rewrite <- Htid. apply task_id_elem, Htin. }
  split; [exact Hn |].
  unfold insert_launched. rewrite Ht. unfold registry_insert. cbn [job_id new_record].
  apply find_job_None in Hn. rewrite Hn. reflexivity.
Qed.

Lemma insert_launched_consistent (i : string) (s : jstate) :
  consistent s -> consistent (snd (insert_launched i s)).
Proof.
  intros (Hwf & Hl & Hq & Ha).
  pose proof (insert_launched_wf i s Hwf) as Hwf'.
  destruct (find_task i (launching s)) as [t |] eqn:Ht.
  2: { unfold insert_launched. rewrite Ht. exact (conj Hwf (conj Hl (conj Hq Ha))). }
  destruct (insert_launched_fresh i s t Hwf Ht) as [Hn Heq].
  rewrite Heq in Hwf' |- *. cbn [snd] in *.
  destruct (find_task_Some _ _ _ Ht) as [Htin Htid].
  assert (Hil : i ∈ task_id <$> launching s)
    by (rewrite <- Htid; apply task_id_elem, Htin).
  split; [exact Hwf' |]. cbn [launching queue active registry].
  split; [| split].
  - intros x Hx. apply task_ids_remove in Hx as [Hx Hne].
    pose proof (Hl x Hx) as Hnx.
    rewrite !fmap_app, !not_elem_of_app in *. cbn.
    destruct Hnx as [Hnq Hna]. repeat split; [exact Hnq | | exact Hna].
    rewrite not_elem_of_cons. split; [congruence | apply not_elem_of_nil].
  - intros j r Hj Hr.
    destruct (find_job j (registry s)) as [r0 |] eqn:Hr0.
    + rewrite (find_job_app_l _ _ _ _ Hr0) in Hr. injection Hr as <-.
      apply (Hq j); [| exact Hr0].
      rewrite fmap_app, elem_of_app in Hj. destruct Hj as [Hj | Hj]; [exact Hj |].
      apply list_elem_of_singleton in Hj. cbn in Hj.
      exfalso. apply Hn. rewrite <- Htid, <- Hj.
      apply find_job_Some in Hr0 as [Hin <-].
      apply list_elem_of_fmap. eexists. split; [reflexivity | exact Hin].
    + rewrite (find_job_app_r _ _ _ Hr0) in Hr.
      apply find_job_singleton in Hr as [-> _]. reflexivity.
  - intros j r Hj Hr.
    destruct (find_job j (registry s)) as [r0 |] eqn:Hr0.
    + rewrite (find_job_app_l _ _ _ _ Hr0) in Hr. injection Hr as <-.
      apply (Ha j); assumption.
    + rewrite (find_job_app_r _ _ _ Hr0) in Hr.
      apply find_job_singleton in Hr as [_ Hid]. cbn in Hid. subst j.
      exfalso. apply (Hl i Hil). rewrite fmap_app, elem_of_app. right. exact Hj.
Qed.

Lemma worker_start_consistent (wid : nat) (i : string) (s : jstate) :
  consistent s -> consistent (worker_start wid i s).
Proof.
  intros (Hwf & Hl & Hq & Ha).
  pose proof (worker_start_wf wid i s Hwf) as Hwf'.
  unfold worker_start in *.
  destruct (find_task i (queue s)) as [t |] eqn:Ht;
    [| exact (conj Hwf (conj Hl (conj Hq Ha)))].
  destruct (find_task_Some _ _ _ Ht) as [Htin Htid].
  assert (Hiq : i ∈ task_id <$> queue s)
    by (rewrite <- Htid; apply task_id_elem, Htin).
  split; [exact Hwf' |]. cbn [launching queue active registry].
  split; [| split].
  - intros x Hx. pose proof (Hl x Hx) as Hnx.
    rewrite !fmap_app, !not_elem_of_app in *. cbn.
    destruct Hnx as [Hnq Hna]. repeat split; [| exact Hna |].
    + intros Hr. apply task_ids_remove in Hr as [Hr _]. exact (Hnq Hr).
    + rewrite not_elem_of_cons. split; [| apply not_elem_of_nil].
      intros ->. apply Hnq. rewrite Htid. exact Hiq.
  - intros j r Hj Hr. apply task_ids_remove in Hj as [Hj Hne].
    rewrite find_job_try_update_ne in Hr by congruence. apply (Hq j); assumption.
  - intros j r Hj Hr.
    destruct (decide (j = i)) as [-> | Hne].
    + destruct (find_job i (registry s)) as [r0 |] eqn:Hr0.
      * pose proof (Hq i r0 Hiq Hr0) as Hp.
        rewrite (try_update_forward i running _ _ r0 Hr0) in Hr
          by (rewrite Hp; cbn; lia).
        injection Hr as <-. reflexivity.
      * rewrite try_update_absent in Hr by exact Hr0. congruence.
    + rewrite find_job_try_update_ne in Hr by congruence.
      apply (Ha j); [| exact Hr].
      rewrite fmap_app, elem_of_app in Hj. destruct Hj as [Hj | Hj]; [exact Hj |].
      apply list_elem_of_singleton in Hj. cbn in Hj. congruence.
Qed.

Lemma worker_finish_consistent (i : string) (outcome : result pyval) (s : jstate) :
  consistent s -> consistent (worker_finish i outcome s).
Proof.
  intros (Hwf & Hl & Hq & Ha).
  pose proof (worker_finish_wf i outcome s Hwf) as Hwf'.
  unfold worker_finish in *.
  destruct (find_task i (active s)) as [t |] eqn:Ht;
    [| exact (conj Hwf (conj Hl (conj Hq Ha)))].
  destruct (find_task_Some _ _ _ Ht) as [Htin Htid].
  assert (Hia : i ∈ task_id <$> active s)
    by (rewrite <- Htid; apply task_id_elem, Htin).
  split; [exact Hwf' |]. cbn [launching queue active registry].
  assert (Hreg : forall st u j r,
            j ∈ task_id <$> queue s \/ (j ∈ task_id <$> active s /\ j <> i) ->
            find_job j (try_update i st u (registry s)) = Some r ->
            find_job j (registry s) = Some r).
  { intros st u j r Hj Hr.
    destruct (decide (j = i)) as [-> | Hne];
      [| rewrite find_job_try_update_ne in Hr by congruence; exact Hr].
    destruct Hj as [Hj | [_ Hj]]; [| congruence].
    destruct (find_job i (registry s)) as [r0 |] eqn:Hr0.
    - pose proof (Hq i r0 Hj Hr0) as Hp. pose proof (Ha i r0 Hia Hr0) as Hr'.
      congruence.
    - rewrite try_update_absent in Hr by exact Hr0. congruence. }
  split; [| split].
  - intros x Hx. pose proof (Hl x Hx) as Hnx.
    rewrite !fmap_app, !not_elem_of_app in *.
    destruct Hnx as [Hnq Hna]. split; [exact Hnq |].
    intros Hr. apply task_ids_remove in Hr as [Hr _]. exact (Hna Hr).
  - intros j r Hj Hr. apply (Hq j); [exact Hj |].
    destruct outcome; eapply Hreg; eauto.
  - intros j r Hj Hr. apply task_ids_remove in Hj as [Hj Hne].
    apply (Ha j); [exact Hj |].
    destruct outcome; eapply Hreg; eauto.
Qed.

Lemma delete_background_job_consistent (parameters : pyval) (s : jstate) :
  consistent s -> consistent (snd (delete_background_job parameters s)).
Proof.
  intros (Hwf & Hl & Hq & Ha).
  pose proof (delete_background_job_wf parameters s Hwf) as Hwf'.
  destruct (delete_background_job_state parameters s) as [-> | [i Heq]];
    [exact (conj Hwf (conj Hl (conj Hq Ha))) |].
  rewrite Heq in Hwf' |- *.
  split; [exact Hwf' |]. cbn [set_registry launching queue active registry].
  split; [exact Hl |]. split.
  - intros j r Hj Hr. apply (Hq j); [exact Hj |].
    eapply find_job_filter_Some. exact Hr.
  - intros j r Hj Hr. apply (Ha j); [exact Hj |].
    eapply find_job_filter_Some. exact Hr.
Qed.

Lemma step_consistent (s s' : jstate) :
  step next_id s s' ->
  next_id (issued s) ∉ issued s ->
  consistent s -> consistent s'.
Proof.
  intros [callable parameters s0 | i s0 | wid i s0 | i outcome s0 | parameters s0] Hf.
  - apply alloc_id_consistent. exact Hf.
  - apply insert_launched_consistent.
  - apply worker_start_consistent.
  - apply worker_finish_consistent.
  - apply delete_background_job_consistent.
Qed.

(** Only the generation of an identifier changes what has been generated. *)
Lemma step_issued_log (s s' : jstate) :
  step next_id s s' ->
  issued s' = issued s \/ issued s' = next_id (issued s) :: issued s.
Proof.
  intros [callable parameters s0 | i s0 | wid i s0 | i outcome s0 | parameters s0].
  - right. reflexivity.
  - left. unfold insert_launched. destruct (find_task i (launching s0)); [| reflexivity].
    destruct (registry_insert _ (registry s0)); reflexivity.
  - left. unfold worker_start. destruct (find_task i (queue s0)); reflexivity.
  - left. unfold worker_finish. destruct (find_task i (active s0)); reflexivity.
  - left. destruct (delete_background_job_state parameters s0) as [-> | [i ->]];
      reflexivity.
Qed.

(** The registry keeps its identifiers apart by itself, whatever is
    generated. *)
Lemma step_registry_NoDup (s s' : jstate) :
  step next_id s s' -> NoDup (ids (registry s)) -> NoDup (ids (registry s')).
Proof.
  intros [callable parameters s0 | i s0 | wid i s0 | i outcome s0 | parameters s0] Hnd.
  - exact Hnd.
  - unfold insert_launched. destruct (find_task i (launching s0)) as [t |]; [| exact Hnd].
    unfold registry_insert. cbn [job_id new_record].
    destruct (find_job i (registry s0)) as [r |] eqn:Hr; [exact Hnd |].
    cbn [snd registry]. unfold ids. rewrite fmap_app. cbn.
    apply NoDup_app. split; [exact Hnd |]. split; [| apply NoDup_singleton].
    intros x Hx Hin. apply list_elem_of_singleton in Hin. subst x.
    apply find_job_None in Hr. exact (Hr Hx).
  - unfold worker_start. destruct (find_task i (queue s0)); [| exact Hnd].
    cbn [registry]. rewrite ids_try_update. exact Hnd.
  - unfold worker_finish. destruct (find_task i (active s0)); [| exact Hnd].
    cbn [registry]. destruct outcome; rewrite ids_try_update; exact Hnd.
  - destruct (delete_background_job_state parameters s0) as [-> | [i ->]];
      [exact Hnd |].
    cbn [set_registry registry]. apply NoDup_ids_filter, Hnd.
Qed.

Lemma reachable_registry_NoDup (s : jstate) :
  reachable next_id s -> NoDup (ids (registry s)).
Proof.
  unfold reachable. revert s. apply rtc_ind_r; [apply NoDup_nil; trivial |].
  intros y z _ Hst IH. exact (step_registry_NoDup y z Hst IH).
Qed.

End Schedules.

(** ** The counter *)

Lemma init_consistent : consistent init.
Proof.
  split; [apply init_wf |]. cbn. repeat split.
  - intros i Hi. apply elem_of_nil in Hi. destruct Hi.
  - intros i r Hi. apply elem_of_nil in Hi. destruct Hi.
  - intros i r Hi. apply elem_of_nil in Hi. destruct Hi.
Qed.

Lemma step_counter (s s' : jstate) :
  step counter_id s s' ->
  consistent s /\ counted (issued s) ->
  consistent s' /\ counted (issued s').
Proof.
  intros Hst [Hc Hl]. split.
  - apply (step_consistent counter_id s s' Hst); [apply counted_fresh, Hl | exact Hc].
  - destruct (step_issued_log counter_id s s' Hst) as [-> | ->];
      [exact Hl | apply counted_next, Hl].
Qed.

Lemma rtc_counter (s s' : jstate) :
  rtc (step counter_id) s s' ->
  consistent s /\ counted (issued s) ->
  consistent s' /\ counted (issued s').
Proof.
  intros H. induction H as [| s0 s1 s2 Hst _ IH]; [trivial |].
  intros H0. apply IH. exact (step_counter s0 s1 Hst H0).
Qed.

Lemma reachable_counter (s : jstate) :
  reachable counter_id s -> consistent s /\ counted (issued s).
Proof.
  intros H. apply (rtc_counter init s H).
  split; [apply init_consistent | apply counted_nil].
Qed.

Lemma rtc_issued (next_id : list string -> string) (s s' : jstate) :
  rtc (step next_id) s s' -> forall i, i ∈ issued s -> i ∈ issued s'.
Proof.
  intros H. induction H as [| s0 s1 s2 Hst _ IH]; [trivial |].
  intros i Hi. apply IH. exact (step_issued next_id s0 s1 Hst i Hi).
Qed.

(** A launch run in one piece, when the identifier it generates is new. *)
Lemma launch_at (next_id : list string -> string) callable parameters (s : jstate) :
  wf s ->
  next_id (issued s) ∉ issued s ->
  (next_id (issued s) ∉ ids (registry s))
  /\ launch next_id callable parameters s
     = (inr (next_id (issued s)), launched next_id callable parameters s).
Proof.
  intros (Hiss & Huse & Hsub & Hq) Hf.
  set (i := next_id (issued s)) in *.
  assert (Hnu : i ∉ in_use s) by (intros Hin; apply Hf, Hsub, Hin).
  unfold in_use in Hnu. rewrite not_elem_of_app in Hnu. destruct Hnu as [Hnl Hnr].
  split; [exact Hnr |].
  unfold launch, alloc_id, insert_launched, launched. fold i.
  cbn [launching registry issued queue active clock].
  rewrite (find_task_app_new i (launching s) (mk_task i callable parameters) Hnl eq_refl).
  cbn [task_parameters]. unfold registry_insert. cbn [job_id new_record].
  apply find_job_None in Hnr. rewrite Hnr.
  rewrite (remove_task_app_new i (launching s) (mk_task i callable parameters) Hnl eq_refl).
  reflexivity.
Qed.

Lemma find_task_app_old (i : string) (ts ts' : list task) (t : task) :
  find_task i ts = Some t -> find_task i (ts ++ ts') = Some t.
Proof.
  unfold find_task. induction ts as [| t0 ts IH]; cbn [find app]; [discriminate |].
  destruct (String.eqb (task_id t0) i); [trivial | exact IH].
Qed.

(** What [launch] answers does not depend on the callable. *)
Lemma launch_answer (next_id : list string -> string) func func' parameters
  (s : jstate) :
  fst (launch next_id func parameters s) = fst (launch next_id func' parameters s).
Proof.
  unfold launch, alloc_id, insert_launched.
  set (i := next_id (issued s)).
  cbn [launching registry issued queue active clock].
  destruct (find_task i (launching s)) as [t |] eqn:Ht.
  - rewrite !(find_task_app_old i (launching s) _ t Ht).
    destruct (registry_insert _ (registry s)); reflexivity.
  - apply find_task_None in Ht.
    rewrite (find_task_app_new i (launching s) (mk_task i func parameters) Ht eq_refl).
    rewrite (find_task_app_new i (launching s) (mk_task i func' parameters) Ht eq_refl).
    cbn [task_parameters].
    destruct (registry_insert _ (registry s)); reflexivity.
Qed.

Section Runs.
Variable next_id : list string -> string.
Variable E : Type.
Variable oracle : forall X : Type, call X -> E -> result X * E.

Lemma launch_active callable parameters (s : jstate) :
  active (snd (launch next_id callable parameters s)) = active s.
Proof.
  unfold launch, alloc_id, insert_launched.
  cbn [launching registry issued queue active clock].
  destruct (find_task _ _); [| reflexivity].
  destruct (registry_insert _ _); reflexivity.
Qed.

(** A program starts and ends no worker. *)
Lemma exec_active {R : Type} (p : prog R) (w : world E) :
  active (jobs_of (snd (exec next_id oracle p w))) = active (jobs_of w).
Proof.
  unfold exec. revert w.
  induction p as [R r | R e | R X c k IH | R callable IHc parameters k IH];
    intros w; cbn [interp]; try reflexivity.
  - assert (Hw : active (jobs_of (snd (answer oracle c w))) = active (jobs_of w)).
    { destruct (answer_jobs E oracle c w) as [-> | [q ->]]; [reflexivity |].
      destruct (delete_background_job_state q (jobs_of w)) as [-> | [i ->]];
        reflexivity. }
    destruct (answer oracle c w) as [[e | x] w']; cbn [snd] in *; [exact Hw |].
    rewrite IH. exact Hw.
  - unfold launch_in.
    pose proof (launch_active callable parameters (jobs_of w)) as Hl.
    destruct (launch next_id callable parameters (jobs_of w)) as [a s].
    cbn [snd] in Hl. destruct a as [e | i]; [exact Hl |].
    etrans; [apply (IH i (mk_world s (ext w))) | exact Hl].
Qed.

Lemma exec_reachable {R : Type} (p : prog R) (w : world E) :
  reachable next_id (jobs_of w) ->
  reachable next_id (jobs_of (snd (exec next_id oracle p w))).
Proof.
  intros H. unfold reachable. eapply rtc_trans; [exact H | apply exec_steps].
Qed.

End Runs.

Lemma job_info_error (r : job_record) (msg : string) :
  status r = failed -> error_info r = Some msg ->
  py_getitem (job_info r) "error_info" = inr (PStr msg).
Proof.
  intros Hs He. unfold job_info. rewrite Hs, He.
  cbn [py_getitem]. rewrite lookup_insert_eq. reflexivity.
Qed.

(** The worker's report of a failure, on a state in which the record of a
    task being run is [running]. *)
Lemma worker_finish_failure (i : string) (e : exn) (s : jstate) :
  consistent s ->
  is_Some (find_task i (active s)) ->
  let s' := worker_finish i (inl e) s in
  (forall r, find_job i (registry s) = Some r ->
     let r' := apply_update failed (failure_update e s) r in
     find_job i (registry s') = Some r'
     /\ get_jobs_info (PDict (<["id" := PStr i]> ∅)) s' = inr (PList [job_info r']))
  /\ (find_job i (registry s) = None -> registry s' = registry s).
Proof.
  intros Hc [t Ht] s'.
  assert (Hreg : registry s' = try_update i failed (failure_update e s) (registry s)).
  { unfold s', worker_finish. rewrite Ht. reflexivity. }
  destruct (find_task_Some _ _ _ Ht) as [Htin Htid].
  assert (Hia : i ∈ task_id <$> active s)
    by (rewrite <- Htid; apply task_id_elem, Htin).
  split.
  - intros r Hr r'.
    destruct Hc as (Hwf & _ & _ & Ha).
    pose proof (Ha i r Hia Hr) as Hrun.
    assert (Hfound : find_job i (registry s') = Some r').
    { rewrite Hreg. apply try_update_forward; [exact Hr | rewrite Hrun; cbn; lia]. }
    split; [exact Hfound |].
    pose proof (worker_finish_wf i (inl e) s Hwf) as (_ & Huse & _).
    unfold in_use in Huse. apply NoDup_app in Huse as (_ & _ & Hnd).
    unfold get_jobs_info. rewrite (query_by_id i (registry s') r' Hnd Hfound).
    reflexivity.
  - intros Hn. rewrite Hreg. apply try_update_absent, Hn.
Qed.


(** C7.  Whatever the generation scheme, in every state that launches,
    workers and deletions reach in any interleaving of their registry
    operations, no two records share an identifier, and an insertion that
    completes a launch leaves exactly one record with the identifier of
    the launch: the registry refuses the second.  With the counter for
    generation scheme, moreover: the identifiers generated so far are
    pairwise distinct and every record carries one of them; the identifier
    generated next has not been generated before and names no record; in
    every state reached later, the identifiers generated up to now are still
    known and the one generated next is none of them, so that no identifier
    is used again, not even after its record is deleted; the insertion that
    completes a launch is never refused as a duplicate; and a launch run in
    one piece returns its identifier and leaves exactly one record with
    it. *)
Theorem job_ids_never_shared :
  (forall next_id (s : jstate),
     reachable next_id s ->
     NoDup (ids (registry s))
     /\ forall i j s',
          insert_launched i s = (inr j, s') ->
          j = i /\ length (filter (fun r => job_id r = i) (registry s')) = 1)
  /\ (forall s : jstate,
        reachable counter_id s ->
        NoDup (issued s)
        /\ (forall i, i ∈ ids (registry s) -> i ∈ issued s)
        /\ (counter_id (issued s) ∉ issued s)
        /\ (counter_id (issued s) ∉ ids (registry s))
        /\ (forall s', rtc (step counter_id) s s' ->
              forall i, i ∈ issued s ->
                        i ∈ issued s' /\ counter_id (issued s') <> i)
        /\ (forall i j, fst (insert_launched i s) <> inl (DuplicateIdError j))
        /\ (forall callable parameters,
              exists s',
                launch counter_id callable parameters s
                = (inr (counter_id (issued s)), s')
                /\ length (filter (fun r => job_id r = counter_id (issued s))
                             (registry s')) = 1)).
Proof.
  split.
  - intros next_id s Hreach.
    split; [apply (reachable_registry_NoDup next_id), Hreach |].
    intros i j s'. unfold insert_launched.
    destruct (find_task i (launching s)) as [t |]; [| discriminate].
    unfold registry_insert. cbn [job_id new_record].
    destruct (find_job i (registry s)) as [r |] eqn:Hr; [discriminate |].
    intros [= <- <-]. split; [reflexivity |]. cbn [registry].
    apply find_job_None in Hr.
    rewrite count_new_record; [reflexivity | exact Hr | reflexivity].
  - intros s Hreach.
    destruct (reachable_counter _ Hreach) as [[Hwf _] Hcnt].
    pose proof Hwf as (Hiss & Huse & Hsub & Hq).
    assert (Hin : forall i, i ∈ ids (registry s) -> i ∈ issued s).
    { intros i Hi. apply Hsub. unfold in_use. rewrite elem_of_app. right. exact Hi. }
    pose proof (counted_fresh _ Hcnt) as Hfresh.
    split; [exact Hiss |]. split; [exact Hin |]. split; [exact Hfresh |].
    split; [intros Hi; apply Hfresh, Hin, Hi |].
    split.
    { intros s' Hs' i Hi.
      pose proof (rtc_issued counter_id s s' Hs' i Hi) as Hi'.
      split; [exact Hi' |]. intros He.
      assert (Hreach' : reachable counter_id s')
        by (unfold reachable; eapply rtc_trans; [exact Hreach | exact Hs']).
      destruct (reachable_counter _ Hreach') as [_ Hcnt'].
      apply (counted_fresh _ Hcnt'). rewrite He. exact Hi'. }
    split; [intros i j; apply (insert_launched_wf_inv i s Hwf) |].
    intros callable parameters.
    destruct (launch_at counter_id callable parameters s Hwf Hfresh) as [Hn Hl].
    eexists. split; [exact Hl |]. unfold launched. cbn [registry].
    rewrite count_new_record; [reflexivity | exact Hn | reflexivity].
Qed.

(** ** The job actions against the subsystem *)

(** C4.  The action registered under ['jobs_delete'] is the call of the job
    controller's [delete_background_job] at the same parameters and nothing
    else: it returns what that call returns.  When the parameters refer to
    no record of the registry, the call does not raise: the action returns
    the report of [NotFoundError], a value other than the confirmation, the
    state of the service is the one before the call, and whatever the
    caller does next with the returned value is run. *)
Theorem jobs_delete_delegates_and_reports :
  exists action,
    job_actions.get_actions !! "jobs_delete" = Some action
    /\ (forall parameters,
          action parameters = perform (controller_delete_background_job parameters))
    /\ (forall (S : Type) h l parameters (s : S),
          interp h l (action parameters) s
          = h pyval (controller_delete_background_job parameters) s)
    /\ (forall next_id (E : Type) oracle parameters (w : world E),
          (forall i, referenced_id parameters = PStr i ->
                     i ∉ ids (registry (jobs_of w))) ->
          let report := reported_not_found (referenced_id parameters) in
          exec next_id oracle (action parameters) w = (inr report, w)
          /\ report <> PStr confirmation
          /\ forall (R : Type) (k : pyval -> prog R),
               exec next_id oracle (x <- action parameters;; k x) w
               = exec next_id oracle (k report) w).
Proof.
  exists job_actions._delete_background_job. split; [| split; [| split]].
  - unfold job_actions.get_actions.
    rewrite lookup_insert_ne by discriminate. apply lookup_insert_eq.
  - intros parameters. reflexivity.
  - intros S h l parameters s. apply interp_perform.
  - intros next_id E oracle parameters w Hnone report.
    assert (Hd : delete_background_job parameters (jobs_of w)
                 = (inr report, jobs_of w)).
    { unfold delete_background_job, report.
      destruct (referenced_id parameters) as [| | | | i | |]; try reflexivity.
      unfold registry_delete.
      pose proof (Hnone i eq_refl) as Hi. apply find_job_None in Hi. rewrite Hi.
      reflexivity. }
    assert (Ha : answer oracle (controller_delete_background_job parameters) w
                 = (inr report, w)).
    { cbn [answer]. rewrite Hd. destruct w; reflexivity. }
    split; [| split].
    + unfold exec, job_actions._delete_background_job. rewrite interp_perform.
      exact Ha.
    + discriminate.
    + intros R k. unfold exec, job_actions._delete_background_job, perform.
      cbn [bind interp]. rewrite Ha. reflexivity.
Qed.

(** ** Instances *)

Lemma string_length_append (s1 s2 : string) :
  String.length (s1 +:+ s2) = String.length s1 + String.length s2.
Proof.
  induction s1 as [| a s1 IH]; [reflexivity |].
  change (S (String.length (s1 +:+ s2)) = S (String.length s1 + String.length s2)).
  f_equal. exact IH.
Qed.

(** [requests.concat_id] is a generation scheme: what it generates is longer
    than everything generated before. *)
Lemma concat_id_fresh (l : list string) : requests.concat_id l ∉ l.
Proof.
  assert (H : forall s, s ∈ l ->
                String.length s <= String.length (fold_right String.append EmptyString l)).
  { induction l as [| s0 l IH]; intros s Hs.
    - apply elem_of_nil in Hs. destruct Hs.
    - cbn [fold_right]. rewrite string_length_append.
      apply elem_of_cons in Hs as [-> | Hs]; [lia |].
      specialize (IH s Hs). lia. }
  intros Hin. apply H in Hin. unfold requests.concat_id in Hin. cbn in Hin. lia.
Qed.

(** C4 at [{'id': 'no-such-job'}], on the empty registry. *)
Lemma jobs_delete_witness :
  exec requests.concat_id requests.out_of_service
    (job_actions._delete_background_job requests.delete_unknown) (mk_world init tt)
  = (inr (reported_not_found (PStr "no-such-job")), mk_world init tt).
Proof.
  destruct jobs_delete_delegates_and_reports as (action & Hact & _ & _ & Hrep).
  assert (Ha : action = job_actions._delete_background_job).
  { unfold job_actions.get_actions in Hact.
    rewrite lookup_insert_ne in Hact by discriminate.
    rewrite lookup_insert_eq in Hact. injection Hact as <-. reflexivity. }
  rewrite <- Ha.
  apply (Hrep requests.concat_id unit requests.out_of_service
           requests.delete_unknown (mk_world init tt)).
  intros i _. apply not_elem_of_nil.
Defined.

(** C5 at a request that asks for background execution, on the initial
    state. *)
Lemma execute_in_background_witness :
  wf (jobs_of (mk_world init tt))
  /\ requests.always requests.fit_request = true
  /\ exec requests.concat_id requests.out_of_service
       (decorators.execute_in_background requests.always
          model_controller.fit_body requests.fit_request)
       (mk_world init tt)
     = (inr (PStr "j"),
        mk_world
          (launched requests.concat_id model_controller.fit_body
             requests.fit_request init) tt).
Proof.
  split; [apply init_wf |]. split; [reflexivity |].
  destruct (execute_in_background_contract requests.always requests.concat_id
              concat_id_fresh unit requests.out_of_service
              model_controller.fit_body requests.fit_request (mk_world init tt)
              init_wf) as [_ H].
  destruct (H eq_refl) as (_ & _ & Heq). exact Heq.
Defined.



(** C7 at the state that two launches in a row reach. *)
Lemma job_ids_witness :
  let s1 := snd (launch counter_id requests.disk_full requests.empty init) in
  let s2 := snd (launch counter_id requests.disk_full requests.empty s1) in
  reachable counter_id s2
  /\ ids (registry s2) = ["0"; "1"]
  /\ NoDup (ids (registry s2))
  /\ counter_id (issued s2) ∉ issued s2.
Proof.
  intros s1 s2.
  assert (Hr : reachable counter_id s2).
  { unfold reachable. eapply rtc_trans; apply launch_steps. }
  destruct job_ids_never_shared as [Hany Hcounter].
  destruct (Hany counter_id s2 Hr) as [Hnd _].
  destruct (Hcounter s2 Hr) as (_ & _ & Hfresh & _).
  split; [exact Hr |]. split; [vm_compute; reflexivity |].
  split; [exact Hnd | exact Hfresh].
Defined.

(** * Further properties of the sources *)

(** ** Python values *)

Lemma py_get_builtin (v : pyval) (k : string) (e : exn) :
  py_get v k = inl e -> is_builtin e = true.
Proof. destruct v; intros H; try (injection H as <-; reflexivity); discriminate H. Qed.

Lemma py_getitem_builtin (v : pyval) (k : string) (e : exn) :
  py_getitem v k = inl e -> is_builtin e = true.
Proof.
  destruct v as [| | | | | |d]; intros H; try (injection H as <-; reflexivity).
  cbn [py_getitem] in H. destruct (d !! k); [discriminate H |].
  injection H as <-. reflexivity.
Qed.

Lemma py_contains_builtin (v : pyval) (k : string) (e : exn) :
  py_contains k v = inl e -> is_builtin e = true.
Proof. destruct v; intros H; try (injection H as <-; reflexivity); discriminate H. Qed.

Lemma py_setitem_builtin (v : pyval) (k : string) (x : pyval) (e : exn) :
  py_setitem v k x = inl e -> is_builtin e = true.
Proof. destruct v; intros H; try (injection H as <-; reflexivity); discriminate H. Qed.

Lemma py_setitem_path_builtin (ks : list string) (v : pyval) (k : string)
  (x : pyval) (e : exn) :
  py_setitem_path v k ks x = inl e -> is_builtin e = true.
Proof.
  revert v k. induction ks as [| k' ks IH]; intros v k H; cbn [py_setitem_path] in H.
  - eapply py_setitem_builtin. exact H.
  - destruct (py_getitem v k) as [e0 | sub] eqn:Hg.
    + injection H as <-. eapply py_getitem_builtin. exact Hg.
    + destruct (py_setitem_path sub k' ks x) as [e0 | sub'] eqn:Hs.
      * injection H as <-. eapply IH. exact Hs.
      * eapply py_setitem_builtin. exact H.
Qed.

Lemma py_getitem_inr (v : pyval) (k : string) (x : pyval) :
  py_getitem v k = inr x -> exists d, v = PDict d /\ d !! k = Some x.
Proof.
  destruct v as [| | | | | |d]; intros H; try discriminate H.
  cbn [py_getitem] in H. destruct (d !! k) as [y |] eqn:Hk; [| discriminate H].
  injection H as <-. exists d. split; [reflexivity | exact Hk].
Qed.

(** ** The decorators of [fit] *)

Section FitDecorators.

Import model_controller.

Lemma has_fitting_parameters_getitem (p m fp : pyval) :
  py_getitem p "model" = inr m ->
  py_getitem m "fitting_parameters" = inr fp ->
  has_fitting_parameters p.
Proof.
  intros Hm Hfp.
  apply py_getitem_inr in Hm as (d & -> & Hd).
  apply py_getitem_inr in Hfp as (dm & -> & Hdm).
  exists d, dm, fp. repeat split; assumption.
Qed.

Lemma has_fitting_parameters_setitem (p p' : pyval) (k : string) (x : pyval) :
  py_setitem_path p "model" ["fitting_parameters"; k] x = inr p' ->
  has_fitting_parameters p'.
Proof.
  intros Hset.
  apply py_setitem_path_inv in Hset as (d & m & f & -> & Hd & Hm & ->).
  eexists _, _, _. split; [reflexivity |]. split; apply lookup_insert_eq.
Qed.

Ltac never_raises_step :=
  cbn [bind lift negb]; unfold perform;
  match goal with
  | H : ?r = inl ?e |- never_raises _ (Raise ?e) =>
      apply nr_raise; intros ->;
      first [ apply py_get_builtin in H
            | apply py_getitem_builtin in H
            | apply py_contains_builtin in H
            | apply py_setitem_path_builtin in H ];
      discriminate H
  | |- never_raises _ (Raise _) =>
      apply nr_raise; let H := fresh in intros H; vm_compute in H; discriminate H
  | |- never_raises _ (Ret _) => constructor
  | |- never_raises _ (Call _ _) => apply nr_call; intros ?
  | |- context [lift ?r] => let H := fresh "H" in destruct r as [? | ?] eqn:H
  | |- context [if ?b then _ else _] => destruct b
  end.

(** With fitting parameters in the model parameters, the check of line 79
    passes. *)
Lemma fit_body_keeps_its_guard (p : pyval) :
  has_fitting_parameters p ->
  never_raises (ModelException msg_no_fitting_parameters) (fit_body p).
Proof.
  intros (d & m & v & -> & Hd & Hm). unfold fit_body.
  rewrite (py_getitem_dict _ _ _ Hd). cbn [lift bind].
  rewrite (py_contains_dict_some _ _ _ Hm). cbn [lift bind negb].
  rewrite (py_getitem_dict _ _ _ Hm). unfold _get_model.
  repeat never_raises_step.
Qed.

Lemma job_id_part_never_raises (e : exn) (func : pyval -> prog pyval) (p : pyval) :
  is_builtin e = false ->
  (forall p', has_fitting_parameters p' -> never_raises e (func p')) ->
  has_fitting_parameters p ->
  never_raises e
    (has_job <- lift (py_contains "job_id" p);;
     parameters <-
       (if has_job
        then
          job_id <- lift (py_getitem p "job_id");;
          lift (py_setitem_path p "model" ["fitting_parameters"; "job_id"] job_id)
        else Ret p);;
     func parameters).
Proof.
  intros He Hfunc Hp.
  destruct (py_contains "job_id" p) as [e0 | [|]] eqn:Hc; cbn [lift bind].
  - apply nr_raise. intros ->. apply py_contains_builtin in Hc. congruence.
  - destruct (py_getitem p "job_id") as [e0 | j] eqn:Hj; cbn [lift bind].
    + apply nr_raise. intros ->. apply py_getitem_builtin in Hj. congruence.
    + destruct (py_setitem_path p "model" ["fitting_parameters"; "job_id"] j)
        as [e0 | p'] eqn:Hs; cbn [lift bind].
      * apply nr_raise. intros ->. apply py_setitem_path_builtin in Hs. congruence.
      * apply Hfunc. eapply has_fitting_parameters_setitem. exact Hs.
  - apply Hfunc. exact Hp.
Qed.

(** The wrapper of lines 42 to 66 hands over to the function it wraps only
    a request whose model parameters hold [fitting_parameters]. *)
Lemma transform_never_raises (e : exn) (func : pyval -> prog pyval) (p : pyval) :
  is_builtin e = false ->
  e <> ParameterNotFoundException msg_fitting_parameters ->
  (forall p', has_fitting_parameters p' -> never_raises e (func p')) ->
  never_raises e (_transform_model_parameters_for_fitting func p).
Proof.
  intros He Hne Hfunc. unfold _transform_model_parameters_for_fitting.
  destruct (py_getitem p "model") as [e0 | m] eqn:Hm; cbn [lift bind].
  { apply nr_raise. intros ->. apply py_getitem_builtin in Hm. congruence. }
  destruct (py_contains "fitting_parameters" m) as [e0 | [|]] eqn:Hc;
    cbn [lift bind negb].
  { apply nr_raise. intros ->. apply py_contains_builtin in Hc. congruence. }
  2: { apply nr_raise. congruence. }
  destruct (py_getitem m "fitting_parameters") as [e0 | fp] eqn:Hfp;
    cbn [lift bind].
  { apply nr_raise. intros ->. apply py_getitem_builtin in Hfp. congruence. }
  pose proof (has_fitting_parameters_getitem _ _ _ Hm Hfp) as Hp.
  destruct (py_contains "filter" fp) as [e0 | [|]] eqn:Hcf; cbn [lift bind].
  { apply nr_raise. intros ->. apply py_contains_builtin in Hcf. congruence. }
  - destruct (py_getitem fp "filter") as [e0 | flt] eqn:Hflt; cbn [lift bind perform].
    { apply nr_raise. intros ->. apply py_getitem_builtin in Hflt. congruence. }
    apply nr_call; intros cls. apply nr_call; intros fo. apply nr_call; intros value.
    destruct (py_setitem_path p "model" ["fitting_parameters"; "filter"] value)
      as [e0 | p1] eqn:Hs; cbn [lift bind].
    { apply nr_raise. intros ->. apply py_setitem_path_builtin in Hs. congruence. }
    apply job_id_part_never_raises; [exact He | exact Hfunc |].
    eapply has_fitting_parameters_setitem. exact Hs.
  - apply job_id_part_never_raises; assumption.
Qed.

Lemma set_fitting_parameter (d m fp : gmap string pyval) (k : string) (x : pyval) :
  d !! "model" = Some (PDict m) ->
  m !! "fitting_parameters" = Some (PDict fp) ->
  py_setitem_path (PDict d) "model" ["fitting_parameters"; k] x
  = inr (with_fitting_parameters d m (<[k := x]> fp)).
Proof.
  intros Hm Hfp. cbn [py_setitem_path].
  rewrite (py_getitem_dict _ _ _ Hm), (py_getitem_dict _ _ _ Hfp). reflexivity.
Qed.

(** Lines 60 to 64 of the wrapper on a request whose fitting parameters
    are a dict. *)
Lemma job_id_part (func : pyval -> prog pyval) (d m fp : gmap string pyval) :
  d !! "model" = Some (PDict m) ->
  m !! "fitting_parameters" = Some (PDict fp) ->
  (has_job <- lift (py_contains "job_id" (PDict d));;
   parameters <-
     (if has_job
      then
        job_id <- lift (py_getitem (PDict d) "job_id");;
        lift (py_setitem_path (PDict d)
                "model" ["fitting_parameters"; "job_id"] job_id)
      else Ret (PDict d));;
   func parameters)
  = func (match d !! "job_id" with
          | Some j => with_fitting_parameters d m (<["job_id" := j]> fp)
          | None => PDict d
          end).
Proof.
  intros Hm Hfp. destruct (d !! "job_id") as [j |] eqn:Hj.
  - rewrite (py_contains_dict_some _ _ _ Hj). cbn [lift bind].
    rewrite (py_getitem_dict _ _ _ Hj). cbn [lift bind].
    rewrite (set_fitting_parameter d m fp _ _ Hm Hfp). reflexivity.
  - rewrite (py_contains_dict_none _ _ Hj). reflexivity.
Qed.

Lemma transform_without_filter (func : pyval -> prog pyval)
  (d m fp : gmap string pyval) :
  d !! "model" = Some (PDict m) ->
  m !! "fitting_parameters" = Some (PDict fp) ->
  fp !! "filter" = None ->
  _transform_model_parameters_for_fitting func (PDict d)
  = func (match d !! "job_id" with
          | Some j => with_fitting_parameters d m (<["job_id" := j]> fp)
          | None => PDict d
          end).
Proof.
  intros Hm Hfp Hflt. unfold _transform_model_parameters_for_fitting.
  rewrite (py_getitem_dict _ _ _ Hm). cbn [lift bind].
  rewrite (py_contains_dict_some _ _ _ Hfp). cbn [lift bind negb].
  rewrite (py_getitem_dict _ _ _ Hfp). cbn [lift bind].
  rewrite (py_contains_dict_none _ _ Hflt). cbn [lift bind].
  apply job_id_part; assumption.
Qed.

Lemma with_fitting_parameters_twice (d m fp fp' : gmap string pyval) :
  <["model" := PDict (<["fitting_parameters" := PDict fp']>
                        (<["fitting_parameters" := PDict fp]> m))]>
    (<["model" := PDict (<["fitting_parameters" := PDict fp]> m)]> d)
  = <["model" := PDict (<["fitting_parameters" := PDict fp']> m)]> d.
Proof. rewrite !insert_insert_eq. reflexivity. Qed.

Lemma transform_with_filter (func : pyval -> prog pyval)
  (d m fp : gmap string pyval) (flt : pyval) :
  d !! "model" = Some (PDict m) ->
  m !! "fitting_parameters" = Some (PDict fp) ->
  fp !! "filter" = Some flt ->
  converts_filter flt
    (fun value =>
       func (with_fitting_parameters d m
               (set_if_given "job_id" (d !! "job_id") (<["filter" := value]> fp))))
    (_transform_model_parameters_for_fitting func (PDict d)).
Proof.
  intros Hm Hfp Hflt. unfold _transform_model_parameters_for_fitting.
  rewrite (py_getitem_dict _ _ _ Hm). cbn [lift bind].
  rewrite (py_contains_dict_some _ _ _ Hfp). cbn [lift bind negb].
  rewrite (py_getitem_dict _ _ _ Hfp). cbn [lift bind].
  rewrite (py_contains_dict_some _ _ _ Hflt). cbn [lift bind].
  rewrite (py_getitem_dict _ _ _ Hflt). cbn [lift bind perform].
  eexists. split; [reflexivity |]. intros cls.
  eexists. split; [reflexivity |]. intros fo.
  eexists. split; [reflexivity |]. intros value. cbv beta.
  rewrite (set_fitting_parameter d m fp _ _ Hm Hfp). cbn [lift bind].
  etrans.
  { apply (job_id_part func _
             (<["fitting_parameters" := PDict (<["filter" := value]> fp)]> m)
             (<["filter" := value]> fp)); apply lookup_insert_eq. }
  rewrite lookup_insert_ne by discriminate.
  unfold with_fitting_parameters, set_if_given.
  destruct (d !! "job_id") as [j |]; [| reflexivity].
  rewrite with_fitting_parameters_twice. reflexivity.
Qed.

Lemma request_is_same (d m fp : gmap string pyval) :
  d !! "model" = Some (PDict m) ->
  m !! "fitting_parameters" = Some (PDict fp) ->
  same_but_filter_and_job_id d m fp (PDict d).
Proof.
  intros Hm Hfp. exists d, m, fp. repeat split; auto.
Qed.

Lemma with_fitting_parameters_same (d m fp fp' : gmap string pyval) :
  (forall k, k <> "filter" -> k <> "job_id" -> fp' !! k = fp !! k) ->
  same_but_filter_and_job_id d m fp (with_fitting_parameters d m fp').
Proof.
  intros H. unfold with_fitting_parameters.
  exists (<["model" := PDict (<["fitting_parameters" := PDict fp']> m)]> d),
    (<["fitting_parameters" := PDict fp']> m), fp'.
  split; [reflexivity |]. repeat split.
  - intros k Hk. apply lookup_insert_ne. congruence.
  - apply lookup_insert_eq.
  - intros k Hk. apply lookup_insert_ne. congruence.
  - apply lookup_insert_eq.
  - exact H.
Qed.

Lemma _get_model_constructs (m : gmap string pyval) (i : pyval) :
  m !! "id" = Some i ->
  truthy i = true ->
  _get_model (PDict m)
  = Call get_model_class (fun cls => Call (model_class_new cls i) Ret).
Proof.
  intros Hi Ht. unfold _get_model.
  rewrite (py_get_dict _ _ _ Hi). cbn [lift bind]. rewrite Ht. cbn [negb].
  rewrite (py_getitem_dict _ _ _ Hi). reflexivity.
Qed.

Lemma _get_model_not_a_dict (v : pyval) :
  is_dict v = false -> _get_model v = Raise AttributeError.
Proof. destruct v; intros H; try reflexivity. discriminate H. Qed.

Lemma fit_body_on_model (d m : gmap string pyval) (i fp : pyval) :
  d !! "model" = Some (PDict m) ->
  m !! "id" = Some i ->
  truthy i = true ->
  m !! "fitting_parameters" = Some fp ->
  fit_body (PDict d) = on_model i (fun mdl => Call (model_fit mdl fp) Ret).
Proof.
  intros Hm Hi Ht Hfp. unfold fit_body, on_model.
  rewrite (py_getitem_dict _ _ _ Hm). cbn [lift bind].
  rewrite (_get_model_constructs m i Hi Ht). cbn [bind].
  rewrite (py_contains_dict_some _ _ _ Hfp). cbn [lift bind negb].
  rewrite (py_getitem_dict _ _ _ Hfp). reflexivity.
Qed.

(** X1.  Lines 51 and 52: when the model parameters are a non-empty dict
    without [fitting_parameters], the decorators of [fit] raise
    [ParameterNotFoundException] for it; the program is that [Raise], so no
    filter class is asked for and the function under the decorators is not
    invoked, whichever it is. *)
Theorem fit_without_fitting_parameters_raises (d m : gmap string pyval) :
  d !! "model" = Some (PDict m) ->
  truthy (PDict m) = true ->
  m !! "fitting_parameters" = None ->
  forall func,
    fit_decorators func (PDict d)
    = Raise (ParameterNotFoundException msg_fitting_parameters).
Proof.
  intros Hm Ht Hfp func. unfold fit_decorators.
  rewrite (_check_input_parameters_passes _ d (PDict m) Hm Ht).
  unfold _transform_model_parameters_for_fitting.
  rewrite (py_getitem_dict _ _ _ Hm). cbn [lift bind].
  rewrite (py_contains_dict_none _ _ Hfp). reflexivity.
Qed.

(** X2.  The [ModelException] of line 80 is out of reach through the
    decorators: for every request, of whatever shape, [fit] never raises
    it, provided the function that stands between the decorators and the
    body of [fit] raises it only where the body does (as a function does
    that runs the body at once or launches it as a job).  The decorators
    let through only requests whose model parameters hold
    [fitting_parameters], for which the check of line 79 passes. *)
Theorem fit_guard_of_the_body_is_unreachable
  (func : pyval -> prog pyval) (p : pyval) :
  (forall p',
     never_raises (ModelException msg_no_fitting_parameters) (fit_body p') ->
     never_raises (ModelException msg_no_fitting_parameters) (func p')) ->
  never_raises (ModelException msg_no_fitting_parameters)
    (fit_decorators func p).
Proof.
  intros Hfunc. unfold fit_decorators, _check_input_parameters.
  destruct (py_get p "model") as [e0 | m] eqn:Hm; cbn [lift bind].
  { apply nr_raise. intros ->. apply py_get_builtin in Hm. discriminate Hm. }
  destruct (truthy m); cbn [negb].
  2: { apply nr_raise. discriminate. }
  apply transform_never_raises; [reflexivity | discriminate |].
  intros p' Hp'. apply Hfunc. apply fit_body_keeps_its_guard. exact Hp'.
Qed.

(** X3.  Lines 54 and 60 to 64: when the fitting parameters are a dict
    without [filter], the decorators of [fit] call no collaborator: the
    program is the invocation of the function under them, at the request
    itself when it holds no [job_id], and otherwise at the request whose
    fitting parameters have gained [job_id]. *)
Theorem fit_without_filter_calls_nobody (d m fp : gmap string pyval) :
  d !! "model" = Some (PDict m) ->
  m !! "fitting_parameters" = Some (PDict fp) ->
  fp !! "filter" = None ->
  forall func,
    fit_decorators func (PDict d)
    = func (match d !! "job_id" with
            | Some j => with_fitting_parameters d m (<["job_id" := j]> fp)
            | None => PDict d
            end).
Proof.
  intros Hm Hfp Hflt func. unfold fit_decorators.
  rewrite (_check_input_parameters_passes _ d (PDict m) Hm
             (truthy_dict_lookup _ _ _ Hfp)).
  apply transform_without_filter; assumption.
Qed.

(** X4.  Lines 54 to 58: when the fitting parameters hold [filter], the
    decorators of [fit] ask for the filter class, build a filter from the
    request's [filter], ask it for its value as a model parameter, and
    invoke the function under them at the request in which that value has
    replaced the filter (and [job_id] is set if the request holds one). *)
Theorem fit_converts_the_filter (d m fp : gmap string pyval) (flt : pyval) :
  d !! "model" = Some (PDict m) ->
  m !! "fitting_parameters" = Some (PDict fp) ->
  fp !! "filter" = Some flt ->
  forall func,
    converts_filter flt
      (fun value =>
         func (with_fitting_parameters d m
                 (set_if_given "job_id" (d !! "job_id")
                    (<["filter" := value]> fp))))
      (fit_decorators func (PDict d)).
Proof.
  intros Hm Hfp Hflt func. unfold fit_decorators.
  rewrite (_check_input_parameters_passes _ d (PDict m) Hm
             (truthy_dict_lookup _ _ _ Hfp)).
  apply transform_with_filter; assumption.
Qed.

(** X5.  Lines 42 to 66 change nothing but the entries [filter] and
    [job_id] of the fitting parameters: the function under the decorators of
    [fit] is invoked at a request with the same top-level entries, the same
    model parameters and the same fitting parameters otherwise. *)
Theorem fit_decorators_touch_nothing_else (d m fp : gmap string pyval) :
  d !! "model" = Some (PDict m) ->
  m !! "fitting_parameters" = Some (PDict fp) ->
  forall func,
    invokes func (same_but_filter_and_job_id d m fp)
      (fit_decorators func (PDict d)).
Proof.
  intros Hm Hfp func. unfold fit_decorators.
  rewrite (_check_input_parameters_passes _ d (PDict m) Hm
             (truthy_dict_lookup _ _ _ Hfp)).
  destruct (fp !! "filter") as [flt |] eqn:Hflt.
  - destruct (transform_with_filter func d m fp flt Hm Hfp Hflt)
      as (k1 & -> & H1).
    apply inv_call; intros cls. destruct (H1 cls) as (k2 & -> & H2).
    apply inv_call; intros fo. destruct (H2 fo) as (k3 & -> & H3).
    apply inv_call; intros value. rewrite H3.
    apply inv_here. apply with_fitting_parameters_same.
    intros k Hk1 Hk2. unfold set_if_given.
    destruct (d !! "job_id").
    + rewrite !lookup_insert_ne by congruence. reflexivity.
    + rewrite lookup_insert_ne by congruence. reflexivity.
  - rewrite (transform_without_filter func d m fp Hm Hfp Hflt).
    apply inv_here. destruct (d !! "job_id").
    + apply with_fitting_parameters_same. intros k _ Hk.
      apply lookup_insert_ne. congruence.
    + apply request_is_same; assumption.
Qed.

(** X6.  The decorators and the body of [fit] together, when the body is
    run at once: with a truthy [id], a dict of fitting parameters without
    [filter] and a [job_id] in the request, the model of that [id] is
    resolved and its [fit] is called with the fitting parameters to which
    [job_id] has been added. *)
Theorem synchronous_fit_hands_job_id_to_the_model
  (d m fp : gmap string pyval) (i j : pyval) (func : pyval -> prog pyval) :
  (forall p', func p' = fit_body p') ->
  d !! "job_id" = Some j ->
  d !! "model" = Some (PDict m) ->
  m !! "id" = Some i ->
  truthy i = true ->
  m !! "fitting_parameters" = Some (PDict fp) ->
  fp !! "filter" = None ->
  fit_decorators func (PDict d)
  = on_model i
      (fun mdl => Call (model_fit mdl (PDict (<["job_id" := j]> fp))) Ret).
Proof.
  intros Hfunc Hj Hm Hi Ht Hfp Hflt. unfold fit_decorators.
  rewrite (_check_input_parameters_passes _ d (PDict m) Hm
             (truthy_dict_lookup _ _ _ Hfp)).
  rewrite (transform_without_filter func d m fp Hm Hfp Hflt), Hj, Hfunc.
  unfold with_fitting_parameters.
  apply fit_body_on_model
    with (m := <["fitting_parameters" := PDict (<["job_id" := j]> fp)]> m).
  - apply lookup_insert_eq.
  - rewrite lookup_insert_ne by discriminate. exact Hi.
  - exact Ht.
  - apply lookup_insert_eq.
Qed.

End FitDecorators.

(** ** The operations on a model *)

Section ModelOperations.

Import model_controller.

(** X7.  Lines 113 and 133: with truthy model parameters and [db] absent
    or falsy, [initialize] and [drop] raise [ParameterNotFoundException] for
    [db]; the program is that [Raise], so no model class is asked for and
    no model is constructed. *)
Theorem initialize_and_drop_require_db (d : gmap string pyval) (m : pyval) :
  d !! "model" = Some m ->
  truthy m = true ->
  truthy (default PNone (d !! "db")) = false ->
  initialize (PDict d) = Raise (ParameterNotFoundException msg_db)
  /\ drop (PDict d) = Raise (ParameterNotFoundException msg_db).
Proof.
  intros Hm Ht Hdb. unfold initialize, drop.
  rewrite !(_check_input_parameters_passes _ d m Hm Ht).
  unfold initialize_body, drop_body.
  rewrite (py_get_dict _ _ _ Hm). cbn [lift bind py_get]. rewrite Ht, Hdb.
  split; reflexivity.
Qed.

(** X8.  Lines 157 to 166: [drop_fitting] is the one operation without the
    decorator that checks the request.  On a request without [model] it
    raises the [KeyError] of [parameters['model']], where [get_info], on the
    same request, raises [ParameterNotFoundException]. *)
Theorem drop_fitting_without_model_raises_key_error (d : gmap string pyval) :
  d !! "model" = None ->
  drop_fitting (PDict d) = Raise (KeyError "model")
  /\ get_info (PDict d) = Raise (ParameterNotFoundException msg_model).
Proof.
  intros Hm. split.
  - unfold drop_fitting. cbn [py_getitem]. rewrite Hm. reflexivity.
  - unfold get_info, _check_input_parameters. cbn [py_get]. rewrite Hm.
    reflexivity.
Qed.

(** X9.  Line 183: model parameters that are truthy but not a dict (a
    string, a number, a list) pass the check of the decorator and then fail
    in [_get_model] with [AttributeError], the value having no [get]:
    [get_info] and [drop_fitting] always, [predict] when the request holds
    [inputs], [initialize] and [drop] when its [db] is truthy.  No model
    class is asked for. *)
Theorem model_parameters_not_a_dict (d : gmap string pyval) (v : pyval) :
  d !! "model" = Some v ->
  truthy v = true ->
  is_dict v = false ->
  get_info (PDict d) = Raise AttributeError
  /\ drop_fitting (PDict d) = Raise AttributeError
  /\ (forall x, d !! "inputs" = Some x -> predict (PDict d) = Raise AttributeError)
  /\ (truthy (default PNone (d !! "db")) = true ->
      initialize (PDict d) = Raise AttributeError
      /\ drop (PDict d) = Raise AttributeError).
Proof.
  intros Hm Ht Hv. unfold get_info, predict, initialize, drop.
  rewrite !(_check_input_parameters_passes _ d v Hm Ht).
  unfold get_info_body, drop_fitting, predict_body, initialize_body, drop_body.
  rewrite (py_getitem_dict _ _ _ Hm), (py_get_dict _ _ _ Hm).
  cbn [lift bind]. rewrite (_get_model_not_a_dict v Hv), Ht. cbn [bind negb].
  split; [reflexivity |]. split; [reflexivity |]. split.
  - intros x Hx. rewrite (py_contains_dict_some _ _ _ Hx). reflexivity.
  - intros Hdb. cbn [py_get lift bind]. rewrite Hdb. split; reflexivity.
Qed.

(** X10.  Lines 88 to 101 and 177 to 188: when the model parameters are a
    dict with a truthy [id] and the request holds [inputs], whatever their
    value (the check is for the key), [predict] resolves the model of that
    [id] and returns what its [predict] returns on [parameters['inputs']];
    it calls nothing else. *)
Theorem predict_calls_the_model (d m : gmap string pyval) (i x : pyval) :
  d !! "model" = Some (PDict m) ->
  m !! "id" = Some i ->
  truthy i = true ->
  d !! "inputs" = Some x ->
  predict (PDict d) = on_model i (fun mdl => Call (model_predict mdl x) Ret).
Proof.
  intros Hm Hi Ht Hx. unfold predict, on_model.
  rewrite (_check_input_parameters_passes _ d (PDict m) Hm
             (truthy_dict_lookup _ _ _ Hi)).
  unfold predict_body.
  rewrite (py_contains_dict_some _ _ _ Hx). cbn [lift bind negb].
  rewrite (py_getitem_dict _ _ _ Hm). cbn [lift bind].
  rewrite (_get_model_constructs m i Hi Ht). cbn [bind].
  rewrite (py_getitem_dict _ _ _ Hx). reflexivity.
Qed.

(** X11.  Lines 104 to 166: when the model parameters are a dict with a
    truthy [id], [get_info] and [drop_fitting] resolve the model of that
    [id] and call the method of their name on it, without arguments; with a
    truthy [db] moreover, so do [initialize], which passes the model
    parameters, and [drop].  None calls anything else. *)
Theorem lifecycle_operations_call_the_model (d m : gmap string pyval) (i : pyval) :
  d !! "model" = Some (PDict m) ->
  m !! "id" = Some i ->
  truthy i = true ->
  get_info (PDict d) = on_model i (fun mdl => Call (model_get_info mdl) Ret)
  /\ drop_fitting (PDict d)
     = on_model i (fun mdl => Call (model_drop_fitting mdl) Ret)
  /\ (truthy (default PNone (d !! "db")) = true ->
      initialize (PDict d)
      = on_model i (fun mdl => Call (model_initialize mdl (PDict m)) Ret)
      /\ drop (PDict d) = on_model i (fun mdl => Call (model_drop mdl) Ret)).
Proof.
  intros Hm Hi Ht.
  pose proof (truthy_dict_lookup _ _ _ Hi) as Htm.
  unfold get_info, initialize, drop, on_model.
  rewrite !(_check_input_parameters_passes _ d (PDict m) Hm Htm).
  unfold get_info_body, drop_fitting, initialize_body, drop_body.
  rewrite (py_get_dict _ _ _ Hm), (py_getitem_dict _ _ _ Hm).
  cbn [lift bind]. rewrite (_get_model_constructs m i Hi Ht), Htm.
  cbn [bind negb py_get lift].
  split; [reflexivity |]. split; [reflexivity |].
  intros Hdb. rewrite Hdb. split; reflexivity.
Qed.

(** X12.  Lines 72 to 84: on model parameters with a truthy [id] and
    [fitting_parameters], of whatever value, the body of [fit] resolves the
    model of that [id] and returns what its [fit] returns on the fitting
    parameters. *)
Theorem fit_body_calls_the_model (d m : gmap string pyval) (i fp : pyval) :
  d !! "model" = Some (PDict m) ->
  m !! "id" = Some i ->
  truthy i = true ->
  m !! "fitting_parameters" = Some fp ->
  fit_body (PDict d) = on_model i (fun mdl => Call (model_fit mdl fp) Ret).
Proof.
  intros Hm Hi Ht Hfp. unfold fit_body, on_model.
  rewrite (py_getitem_dict _ _ _ Hm). cbn [lift bind].
  rewrite (_get_model_constructs m i Hi Ht). cbn [bind].
  rewrite (py_contains_dict_some _ _ _ Hfp). cbn [lift bind negb].
  rewrite (py_getitem_dict _ _ _ Hfp). reflexivity.
Qed.

(** X13.  Lines 77 to 80: the body of [fit] looks for the fitting
    parameters only after it has resolved the model.  Run on model
    parameters with a truthy [id] and no [fitting_parameters], it asks for
    the model class, constructs the model, and then raises
    [ModelException]. *)
Theorem fit_body_checks_after_construction (d m : gmap string pyval) (i : pyval) :
  d !! "model" = Some (PDict m) ->
  m !! "id" = Some i ->
  truthy i = true ->
  m !! "fitting_parameters" = None ->
  fit_body (PDict d)
  = on_model i (fun mdl => Raise (ModelException msg_no_fitting_parameters)).
Proof.
  intros Hm Hi Ht Hfp. unfold fit_body, on_model.
  rewrite (py_getitem_dict _ _ _ Hm). cbn [lift bind].
  rewrite (_get_model_constructs m i Hi Ht). cbn [bind].
  rewrite (py_contains_dict_none _ _ Hfp). reflexivity.
Qed.

Ltac job_free_case :=
  cbn [bind lift negb]; unfold perform;
  match goal with
  | |- job_free (Raise _) => constructor
  | |- job_free (Ret _) => constructor
  | |- job_free (Call _ _) => apply jf_call; [reflexivity | intros ?]
  | |- context [lift ?r] => destruct r as [? | ?]
  | |- context [if ?b then _ else _] => destruct b
  end.

(** X14.  [predict], [initialize], [drop], [get_info] and [drop_fitting]
    leave the job subsystem alone on every request, well-formed or not: on
    no path do they launch a job or call the job controller. *)
Theorem model_operations_leave_jobs_alone (p : pyval) :
  job_free (predict p) /\ job_free (initialize p) /\ job_free (drop p)
  /\ job_free (get_info p) /\ job_free (drop_fitting p).
Proof.
  unfold predict, initialize, drop, get_info, drop_fitting,
    _check_input_parameters, predict_body, initialize_body, drop_body,
    get_info_body, _get_model.
  repeat split; repeat job_free_case.
Qed.

End ModelOperations.

(** ** The action tables *)

(** X15.  The actions registered under ['test'] and ['ping'] are the calls
    of [general.test] and [general.ping] at the parameters of the request,
    unchanged, and nothing else: whatever these do, the action returns what
    the call returns and leaves the state the call leaves. *)
Theorem test_and_ping_delegate :
  exists test ping,
    actions.get_actions !! "test" = Some test
    /\ actions.get_actions !! "ping" = Some ping
    /\ forall (S : Type) h l parameters (s : S),
         interp h l (test parameters) s = h pyval (general_test parameters) s
         /\ interp h l (ping parameters) s = h pyval (general_ping parameters) s.
Proof.
  exists actions._test, actions._ping. split; [| split].
  - apply lookup_insert_eq.
  - unfold actions.get_actions. rewrite !lookup_insert_ne by discriminate.
    apply lookup_insert_eq.
  - intros S h l parameters s. split; apply interp_perform.
Qed.

(** X16.  The general actions are registered under ['test'],
    ['get_version'] and ['ping'] and under no other name, the job actions
    under ['jobs_get_info'] and ['jobs_delete'] and under no other name, and
    no name is in both tables: merged in either order they lose no
    action. *)
Theorem action_names (name : string) :
  (is_Some (actions.get_actions !! name)
   <-> name = "test" \/ name = "get_version" \/ name = "ping")
  /\ (is_Some (job_actions.get_actions !! name)
      <-> name = "jobs_get_info" \/ name = "jobs_delete")
  /\ ~ (is_Some (actions.get_actions !! name)
        /\ is_Some (job_actions.get_actions !! name)).
Proof.
  assert (Ha : is_Some (actions.get_actions !! name)
               <-> name = "test" \/ name = "get_version" \/ name = "ping").
  { unfold actions.get_actions. rewrite !lookup_insert_is_Some, lookup_empty.
    split.
    - intros [-> | [_ [-> | [_ [-> | [_ H]]]]]]; auto.
      destruct H as [x Hx]. discriminate Hx.
    - intros [-> | [-> | ->]]; [left | right; split; [discriminate | left]
                                | right; split; [discriminate | right; split;
                                    [discriminate | left]]]; reflexivity. }
  assert (Hj : is_Some (job_actions.get_actions !! name)
               <-> name = "jobs_get_info" \/ name = "jobs_delete").
  { unfold job_actions.get_actions. rewrite !lookup_insert_is_Some, lookup_empty.
    split.
    - intros [-> | [_ [-> | [_ H]]]]; auto.
      destruct H as [x Hx]. discriminate Hx.
    - intros [-> | ->]; [left | right; split; [discriminate | left]];
        reflexivity. }
  split; [exact Ha |]. split; [exact Hj |].
  intros [H1 H2]. apply Ha in H1. apply Hj in H2.
  destruct H1 as [-> | [-> | ->]]; destruct H2 as [H2 | H2]; discriminate H2.
Qed.

(** ** Instances of the further properties *)

(** X1 at [{'model': {'id': 'm1'}}]. *)
Lemma fit_without_fitting_parameters_witness :
  model_controller.fit requests.never requests.model_only
  = Raise (ParameterNotFoundException model_controller.msg_fitting_parameters).
Proof.
  apply (fit_without_fitting_parameters_raises
           (<["model" := PDict more_requests.model_m1]> ∅)
           more_requests.model_m1);
    vm_compute; reflexivity.
Defined.

(** X2 at a request run in the background. *)
Lemma fit_guard_witness :
  never_raises (ModelException model_controller.msg_no_fitting_parameters)
    (model_controller.fit requests.always requests.fit_request).
Proof.
  apply (fit_guard_of_the_body_is_unreachable
           (model_controller.fit_inner requests.always) requests.fit_request).
  intros p' H. apply nr_launch; [exact H | intros i; apply nr_ret].
Defined.

(** X3 at a request without [job_id] and at one with it. *)
Lemma fit_without_filter_witness :
  model_controller.fit requests.never (PDict more_requests.plain_fit)
  = model_controller.fit_body (PDict more_requests.plain_fit)
  /\ model_controller.fit requests.never (PDict more_requests.job_fit)
     = model_controller.fit_body
         (with_fitting_parameters more_requests.job_fit
            more_requests.model_to_fit
            (<["job_id" := PStr "j1"]> more_requests.epochs)).
Proof.
  split.
  - apply (fit_without_filter_calls_nobody more_requests.plain_fit
             more_requests.model_to_fit more_requests.epochs);
      vm_compute; reflexivity.
  - apply (fit_without_filter_calls_nobody more_requests.job_fit
             more_requests.model_to_fit more_requests.epochs);
      vm_compute; reflexivity.
Defined.

(** X4 at a request with a filter and [job_id]. *)
Lemma fit_converts_the_filter_witness :
  converts_filter more_requests.year_filter
    (fun value =>
       model_controller.fit_body
         (with_fitting_parameters more_requests.filtered_fit
            more_requests.filtered_model
            (<["job_id" := PStr "j1"]>
               (<["filter" := value]> more_requests.filtered_epochs))))
    (model_controller.fit requests.never (PDict more_requests.filtered_fit)).
Proof.
  apply (fit_converts_the_filter more_requests.filtered_fit
           more_requests.filtered_model more_requests.filtered_epochs
           more_requests.year_filter);
    vm_compute; reflexivity.
Defined.

(** X5 at the same request. *)
Lemma fit_decorators_touch_nothing_else_witness :
  invokes (model_controller.fit_inner requests.never)
    (same_but_filter_and_job_id more_requests.filtered_fit
       more_requests.filtered_model more_requests.filtered_epochs)
    (model_controller.fit requests.never (PDict more_requests.filtered_fit)).
Proof.
  apply (fit_decorators_touch_nothing_else more_requests.filtered_fit
           more_requests.filtered_model more_requests.filtered_epochs);
    vm_compute; reflexivity.
Defined.

(** X6 at a request run at once. *)
Lemma synchronous_fit_witness :
  model_controller.fit requests.never (PDict more_requests.job_fit)
  = on_model (PStr "m1")
      (fun mdl =>
         Call (model_fit mdl
                 (PDict (<["job_id" := PStr "j1"]> more_requests.epochs))) Ret).
Proof.
  apply (synchronous_fit_hands_job_id_to_the_model more_requests.job_fit
           more_requests.model_to_fit more_requests.epochs (PStr "m1") (PStr "j1")
           (model_controller.fit_inner requests.never));
    [intros p'; reflexivity | vm_compute; reflexivity ..].
Defined.

(** X7 at [{'model': {'id': 'm1'}, 'db': ''}]. *)
Lemma initialize_and_drop_require_db_witness :
  model_controller.initialize (PDict more_requests.model_and_empty_db)
  = Raise (ParameterNotFoundException model_controller.msg_db)
  /\ model_controller.drop (PDict more_requests.model_and_empty_db)
     = Raise (ParameterNotFoundException model_controller.msg_db).
Proof.
  apply (initialize_and_drop_require_db more_requests.model_and_empty_db
           (PDict more_requests.model_m1));
    vm_compute; reflexivity.
Defined.

(** X8 at [{'db': 'db1'}]. *)
Lemma drop_fitting_without_model_witness :
  model_controller.drop_fitting (PDict more_requests.db_only)
  = Raise (KeyError "model")
  /\ model_controller.get_info (PDict more_requests.db_only)
     = Raise (ParameterNotFoundException model_controller.msg_model).
Proof.
  apply (drop_fitting_without_model_raises_key_error more_requests.db_only).
  vm_compute; reflexivity.
Defined.

(** X9 at [{'model': 'm1', 'inputs': [], 'db': 'db1'}]. *)
Lemma model_parameters_not_a_dict_witness :
  let p := PDict more_requests.model_as_string in
  model_controller.get_info p = Raise AttributeError
  /\ model_controller.drop_fitting p = Raise AttributeError
  /\ model_controller.predict p = Raise AttributeError
  /\ model_controller.initialize p = Raise AttributeError
  /\ model_controller.drop p = Raise AttributeError.
Proof.
  destruct (model_parameters_not_a_dict more_requests.model_as_string
              (PStr "m1") eq_refl eq_refl eq_refl)
    as (Hinfo & Hdf & Hpredict & Hdb).
  destruct (Hdb eq_refl) as [Hinit Hdrop].
  exact (conj Hinfo (conj Hdf (conj (Hpredict (PList []) eq_refl)
                                 (conj Hinit Hdrop)))).
Defined.

(** X10 at [{'model': {'id': 'm1'}, 'inputs': None}]. *)
Lemma predict_calls_the_model_witness :
  model_controller.predict (PDict more_requests.predict_none)
  = on_model (PStr "m1") (fun mdl => Call (model_predict mdl PNone) Ret).
Proof.
  apply (predict_calls_the_model more_requests.predict_none
           more_requests.model_m1 (PStr "m1") PNone);
    vm_compute; reflexivity.
Defined.

(** X11 at [{'model': {'id': 'm1'}, 'db': 'db1'}]. *)
Lemma lifecycle_operations_witness :
  let p := PDict more_requests.model_and_db in
  model_controller.get_info p
  = on_model (PStr "m1") (fun mdl => Call (model_get_info mdl) Ret)
  /\ model_controller.drop_fitting p
     = on_model (PStr "m1") (fun mdl => Call (model_drop_fitting mdl) Ret)
  /\ model_controller.initialize p
     = on_model (PStr "m1")
         (fun mdl => Call (model_initialize mdl (PDict more_requests.model_m1)) Ret)
  /\ model_controller.drop p
     = on_model (PStr "m1") (fun mdl => Call (model_drop mdl) Ret).
Proof.
  destruct (lifecycle_operations_call_the_model more_requests.model_and_db
              more_requests.model_m1 (PStr "m1") eq_refl eq_refl eq_refl)
    as (Hinfo & Hdf & Hdb).
  destruct (Hdb eq_refl) as [Hinit Hdrop].
  exact (conj Hinfo (conj Hdf (conj Hinit Hdrop))).
Defined.

(** X12 at [{'model': {'id': 'm1', 'fitting_parameters': {'epochs': 3}}}]. *)
Lemma fit_body_calls_the_model_witness :
  model_controller.fit_body (PDict more_requests.plain_fit)
  = on_model (PStr "m1")
      (fun mdl => Call (model_fit mdl (PDict more_requests.epochs)) Ret).
Proof.
  apply (fit_body_calls_the_model more_requests.plain_fit
           more_requests.model_to_fit (PStr "m1") (PDict more_requests.epochs));
    vm_compute; reflexivity.
Defined.

(** X13 at [{'model': {'id': 'm1'}}]. *)
Lemma fit_body_checks_after_construction_witness :
  model_controller.fit_body requests.model_only
  = on_model (PStr "m1")
      (fun mdl =>
         Raise (ModelException model_controller.msg_no_fitting_parameters)).
Proof.
  apply (fit_body_checks_after_construction
           (<["model" := PDict more_requests.model_m1]> ∅)
           more_requests.model_m1 (PStr "m1"));
    vm_compute; reflexivity.
Defined.
